(** * ShellMate: a shallow embedding of the Lambda adapter
    (src/aws/lambda_function.py) and of the CLI (src/shellmate/src/shellmate.py). *)

From Stdlib Require Import List Bool Arith ZArith NArith QArith Qround Lia.
From Stdlib Require Import Strings.String Strings.Ascii Lqa.
Import ListNotations.
Open Scope nat_scope.
Open Scope list_scope.

(* ================================================================== *)
(** ** Python strings *)

(** A Python [str] is a sequence of code points. *)
Definition py_str := list N.

(** Literal helper: the code points of an ASCII Rocq string. *)
Fixpoint lit (s : string) : py_str :=
  match s with
  | EmptyString => []
  | String c r => N_of_ascii c :: lit r
  end.
Arguments lit s%_string.

(** [str.isspace] for one code point (the Unicode White_Space set plus
    the separators 0x1c..0x1f that Python also treats as whitespace). *)
Definition py_isspace (c : N) : bool :=
  ((9 <=? c) && (c <=? 13))%N || ((28 <=? c) && (c <=? 32))%N
  || (c =? 133)%N || (c =? 160)%N || (c =? 5760)%N
  || ((8192 <=? c) && (c <=? 8202))%N
  || (c =? 8232)%N || (c =? 8233)%N || (c =? 8239)%N
  || (c =? 8287)%N || (c =? 12288)%N.

Fixpoint lstrip (s : py_str) : py_str :=
  match s with
  | [] => []
  | c :: r => if py_isspace c then lstrip r else s
  end.

Definition rstrip (s : py_str) : py_str := rev (lstrip (rev s)).

(** [str.strip()] with no argument. *)
Definition py_strip (s : py_str) : py_str := rstrip (lstrip s).

Fixpoint is_prefix (p s : py_str) : bool :=
  match p, s with
  | [], _ => true
  | a :: p', b :: s' => (a =? b)%N && is_prefix p' s'
  | _ :: _, [] => false
  end.

(** [s.replace(old, new)] for a non-empty [old]: a left-to-right scan
    replacing non-overlapping occurrences.  [skip] counts the characters
    of the occurrence just replaced that are still to be passed over. *)
Fixpoint replace_from (old new : py_str) (skip : nat) (s : py_str) : py_str :=
  match s with
  | [] => []
  | c :: r =>
      match skip with
      | S k => replace_from old new k r
      | O =>
          if is_prefix old s
          then new ++ replace_from old new (pred (List.length old)) r
          else c :: replace_from old new 0 r
      end
  end.

Definition py_replace (old new s : py_str) : py_str := replace_from old new 0 s.

(* ================================================================== *)
(** ** The response sanitizer, lines 263 and 266 of generate_shell_command *)

Definition fence_bash : py_str := lit "```bash".
Definition fence : py_str := lit "```".

(** [command = text.strip()] followed by
    [command = command.replace('```bash', '').replace('```', '').strip()]. *)
Definition sanitize (text : py_str) : py_str :=
  py_strip (py_replace fence [] (py_replace fence_bash [] (py_strip text))).

(** Substring test: [p in s]. *)
Fixpoint has_infix (p s : py_str) : bool :=
  is_prefix p s || match s with [] => false | _ :: r => has_infix p r end.

(** String equality and membership ([s == t], [s in [...]]). *)
Definition str_eqb (s t : py_str) : bool :=
  if list_eq_dec N.eq_dec s t then true else false.

Definition str_in (s : py_str) (l : list py_str) : bool :=
  existsb (str_eqb s) l.

(* ================================================================== *)
(** ** JSON values, exceptions *)

Set Warnings "-register-all".

(** Values produced by [json.loads] (numbers restricted to integers). *)
Inductive json : Type :=
| JNull
| JBool (b : bool)
| JNum (z : Z)
| JStr (s : py_str)
| JArr (l : list json)
| JObj (kv : list (py_str * json)).

(** [d.get(k)] on a dict; with duplicate keys [json.loads] keeps the last one. *)
Definition dict_get (kv : list (py_str * json)) (k : py_str) : option json :=
  match find (fun kv' => str_eqb k (fst kv')) (rev kv) with
  | Some (_, v) => Some v
  | None => None
  end.

(** The exceptions the modelled code raises or catches. *)
Inductive py_exc : Type :=
| AttributeError
| TypeError
| KeyError
| IndexError
| JSONDecodeError
| UnboundLocalError
| ClientError (code msg : py_str)
| OtherException (name : py_str).

(** A Python computation that returns a value or raises. *)
Inductive pyres (A : Type) : Type :=
| Ok (a : A)
| Raise (e : py_exc).
Arguments Ok {A} a.
Arguments Raise {A} e.

Notation "x <- m ;; k" :=
  (match m with Ok x => k | Raise e => Raise e end)
  (at level 61, m at next level, right associativity).

(** [obj.get(k, default)]: only a dict has [.get]. *)
Definition py_get (o : json) (k : py_str) (default : json) : pyres json :=
  match o with
  | JObj kv => match dict_get kv k with Some v => Ok v | None => Ok default end
  | _ => Raise AttributeError
  end.

(** [o[k]] with a string key. *)
Definition getitem (o : json) (k : py_str) : pyres json :=
  match o with
  | JObj kv => match dict_get kv k with Some v => Ok v | None => Raise KeyError end
  | _ => Raise TypeError
  end.

(** [o[0]]. *)
Definition getitem0 (o : json) : pyres json :=
  match o with
  | JArr (x :: _) => Ok x
  | JArr [] => Raise IndexError
  | JStr (c :: _) => Ok (JStr [c])
  | JStr [] => Raise IndexError
  | JObj _ => Raise KeyError
  | _ => Raise TypeError
  end.

(** Python truthiness of a decoded value ([if not command]). *)
Definition truthy (v : json) : bool :=
  match v with
  | JNull => false
  | JBool b => b
  | JNum z => negb (z =? 0)%Z
  | JStr s => negb (List.length s =? 0)
  | JArr l => negb (List.length l =? 0)
  | JObj kv => negb (List.length kv =? 0)
  end.

(* ================================================================== *)
(** ** Backend invoker: the retry loop of generate_shell_command (lines 215-257) *)

(** What one call of [bedrock.invoke_model] does: it returns a response whose
    body reads as JSON ([None]: the body is not valid JSON), or it raises
    ([ClientError] for service errors, anything else for transport errors
    such as connection or read timeouts). *)
Inductive invoke_result : Type :=
| Invoked (body : option json)
| InvokeRaised (e : py_exc).

(** Observable events of the loop: a call of [invoke_model] at an attempt
    index, and a [time.sleep]. *)
Inductive bedrock_event : Type :=
| Invoke (attempt : nat)
| Sleep (delay : Q).

Definition max_retries : nat := 5.
Definition base_delay : Z := 2.

Definition throttle_codes : list py_str :=
  [lit "ThrottlingException"; lit "TooManyRequestsException";
   lit "ServiceQuotaExceededException"].

(** Python's float [t % 0.5] (sign of the divisor), on exact rationals. *)
Definition py_mod_half (t : Q) : Q :=
  (t - (1 # 2) * inject_Z (Qfloor (t / (1 # 2))))%Q.

(** [base_delay * (2 ** attempt) + (time.time() % 0.5)]. *)
Definition throttle_delay (attempt : nat) (now : Q) : Q :=
  (inject_Z (base_delay * 2 ^ Z.of_nat attempt) + py_mod_half now)%Q.

(** [1 + (attempt * 0.5)]. *)
Definition retry_delay (attempt : nat) : Q :=
  (1 + inject_Z (Z.of_nat attempt) * (1 # 2))%Q.

Section Invoker.
(** The backend's answer to the (fixed) request body at each attempt. *)
Variable invoke_model : nat -> invoke_result.
(** The value of [time.time()] when the jitter of attempt [n] is computed. *)
Variable clock : nat -> Q.

(** [for attempt in range(...)] with [fuel] iterations left.  The result is
    the response body read after [break], or the exception re-raised. *)
Fixpoint retry_loop (fuel attempt : nat) : list bedrock_event * pyres (option json) :=
  match fuel with
  | O => ([], Raise UnboundLocalError)  (* loop ends without break *)
  | S fuel' =>
      match invoke_model attempt with
      | Invoked body => ([Invoke attempt], Ok body)
      | InvokeRaised (ClientError code msg) =>
          if str_in code throttle_codes && (attempt <? max_retries) then
            let (tr, r) := retry_loop fuel' (S attempt) in
            (Invoke attempt :: Sleep (throttle_delay attempt (clock attempt)) :: tr, r)
          else if str_eqb code (lit "ValidationException") then
            ([Invoke attempt], Raise (ClientError code msg))
          else if attempt <? max_retries then
            let (tr, r) := retry_loop fuel' (S attempt) in
            (Invoke attempt :: Sleep (retry_delay attempt) :: tr, r)
          else ([Invoke attempt], Raise (ClientError code msg))
      | InvokeRaised e => ([Invoke attempt], Raise e)
      end
  end.

Definition invoker : list bedrock_event * pyres (option json) :=
  retry_loop (S max_retries) 0.

(** [response_body['content'][0]['text']] on the body read; it must be a
    string for the following [.strip()]. *)
Definition extract_text (body : option json) : pyres py_str :=
  match body with
  | None => Raise JSONDecodeError
  | Some b =>
      content <- getitem b (lit "content") ;;
      first <- getitem0 content ;;
      text <- getitem first (lit "text") ;;
      match text with JStr t => Ok t | _ => Raise AttributeError end
  end.

(** [generate_shell_command(query, context)].  Building [user_prompt] calls
    [context.get] outside the [try]; every exception inside the [try]
    becomes [None]. *)
Definition generate_shell_command (query : py_str) (context : json)
  : list bedrock_event * pyres (option py_str) :=
  match context with
  | JObj _ =>
      let (tr, r) := invoker in
      (tr, match r with
           | Raise _ => Ok None
           | Ok body =>
               match extract_text body with
               | Ok t => Ok (Some (sanitize t))
               | Raise _ => Ok None
               end
           end)
  | _ => ([], Raise AttributeError)
  end.
End Invoker.

(* ================================================================== *)
(** ** Request service adapter: lambda_handler and handle_cors_preflight *)

(** The [body] of a response: [json.dumps(...)] of a value, or raw text. *)
Inductive resp_body : Type :=
| BodyJson (j : json)
| BodyText (s : py_str).

Record response : Type := mk_response {
  statusCode : Z;
  headers : list (py_str * py_str);
  body : resp_body
}.

Definition json_headers : list (py_str * py_str) :=
  [(lit "Content-Type", lit "application/json");
   (lit "Access-Control-Allow-Origin", lit "*")].

Definition error_response (status : Z) (msg : string) : response :=
  mk_response status json_headers (BodyJson (JObj [(lit "error", JStr (lit msg))])).

Definition resp_missing_query : response :=
  error_response 400 "Query parameter is required".
Definition resp_generation_failed : response :=
  error_response 500 "Failed to generate shell command".
Definition resp_internal_error : response :=
  error_response 500 "Internal server error".
Definition resp_command (command query : py_str) : response :=
  mk_response 200 json_headers
    (BodyJson (JObj [(lit "command", JStr command); (lit "query", JStr query)])).

Definition handle_cors_preflight : response :=
  mk_response 200
    [(lit "Access-Control-Allow-Origin", lit "*");
     (lit "Access-Control-Allow-Methods", lit "POST, GET, OPTIONS");
     (lit "Access-Control-Allow-Headers", lit "Content-Type, Authorization")]
    (BodyText []).

Section Adapter.
(** [json.loads] on a string request body ([None]: it raises). *)
Variable json_loads : py_str -> option json.
Variable invoke_model : nat -> invoke_result.
Variable clock : nat -> Q.

(** Lines 26-32: the body, [query] stripped, and [context]. *)
Definition parse_request (event : list (py_str * json)) : pyres (py_str * json) :=
  body <- match dict_get event (lit "body") with
          | Some (JStr raw) =>
              match json_loads raw with Some j => Ok j | None => Raise JSONDecodeError end
          | Some b => Ok b
          | None => Ok (JObj event)
          end ;;
  q <- py_get body (lit "query") (JStr []) ;;
  query <- match q with JStr s => Ok (py_strip s) | _ => Raise AttributeError end ;;
  user_context <- py_get body (lit "context") (JObj []) ;;
  Ok (query, user_context).

(** The body of the [try] of [lambda_handler], with the backend events. *)
Definition handler_try (event : list (py_str * json)) : list bedrock_event * pyres response :=
  match parse_request event with
  | Raise e => ([], Raise e)
  | Ok (query, user_context) =>
      match query with
      | [] => ([], Ok resp_missing_query)
      | _ =>
          let (tr, r) := generate_shell_command invoke_model clock query user_context in
          (tr, command <- r ;;
               match command with
               | None | Some [] => Ok resp_generation_failed
               | Some c => Ok (resp_command c query)
               end)
      end
  end.

(** [lambda_handler(event, context)]: the [except Exception] turns every
    exception into the internal-error response. *)
Definition lambda_handler (event : list (py_str * json)) : list bedrock_event * response :=
  let (tr, r) := handler_try event in
  (tr, match r with Ok resp => resp | Raise _ => resp_internal_error end).
End Adapter.

(* ================================================================== *)
(** ** CLI orchestrator (src/shellmate/src/shellmate.py) *)

(** The process's observable effects: what it wrote to standard output and
    to standard error, and the command lines run through [os.system]. *)
Record world : Type := mk_world {
  stdout : py_str;
  stderr : py_str;
  executed : list py_str
}.

Definition empty_world : world := mk_world [] [] [].

(** A small state monad over [world]. *)
Definition M (A : Type) : Type := world -> A * world.
Definition retM {A} (a : A) : M A := fun w => (a, w).
Definition bindM {A B} (m : M A) (f : A -> M B) : M B :=
  fun w => let (a, w') := m w in f a w'.

Notation "x <~ m ; k" := (bindM m (fun x => k))
  (at level 61, m at next level, right associativity).
Notation "m ;; k" := (bindM m (fun _ : unit => k))
  (at level 61, right associativity).

Definition newline : py_str := [10%N].

(** [sys.stdout.write(s)] and [print(s)] ([print(s, file=sys.stderr)]). *)
Definition write_out (s : py_str) : M unit :=
  fun w => (tt, mk_world (stdout w ++ s) (stderr w) (executed w)).
Definition print_out (s : py_str) : M unit := write_out (s ++ newline).
Definition print_err (s : py_str) : M unit :=
  fun w => (tt, mk_world (stdout w) (stderr w ++ s ++ newline) (executed w)).

(** [str.lower()] on the letters A-Z (no other code point lowers to one of
    the letters of 'true' or 'yes'). *)
Definition py_lower (s : py_str) : py_str :=
  map (fun c => if ((65 <=? c) && (c <=? 90))%N then (c + 32)%N else c) s.

(** [os.path.basename(p)]: [p[p.rfind('/') + 1:]]. *)
Fixpoint after_last_slash (acc p : py_str) : py_str :=
  match p with
  | [] => rev acc
  | c :: r => if (c =? 47)%N then after_last_slash [] r else after_last_slash (c :: acc) r
  end.

Definition basename (p : py_str) : py_str := after_last_slash [] p.

(** [' '.join(words)]. *)
Fixpoint py_join (sep : py_str) (words : list py_str) : py_str :=
  match words with
  | [] => []
  | [w] => w
  | w :: ws => w ++ sep ++ py_join sep ws
  end.

(** The Python type name in the message of an [AttributeError]. *)
Definition py_type_name (v : json) : py_str :=
  match v with
  | JNull => lit "NoneType" | JBool _ => lit "bool" | JNum _ => lit "int"
  | JStr _ => lit "str" | JArr _ => lit "list" | JObj _ => lit "dict"
  end.

(** What [urlopen(req, timeout=30)] followed by [json.loads(...decode())]
    gives back. *)
Inductive http_result : Type :=
| HttpJson (result : json)
| HttpBadJson (msg : py_str)
| HttpError (code reason : py_str)
| UrlError (reason : py_str)
| HttpOther (msg : py_str).

(** What the operator does at the staged [input(prompt_char)]. *)
Inductive stage_result : Type :=
| Entered (line : py_str)
| Interrupted
| EndOfInput
| StageError (msg : py_str).

(** The environment variables the CLI reads. *)
Record cli_env : Type := mk_cli_env {
  env_endpoint : option py_str;
  env_show_prompt : option py_str;
  env_shell : option py_str
}.

(** How [run] ends: it returns a boolean, or an exception escapes. *)
Inductive run_outcome : Type :=
| Returned (b : bool)
| Crashed (e : py_exc).

Section CLI.
Variable env : cli_env.
(** The answer of the service to the request of [query_ai]. *)
Variable http : http_result.
(** The operator's action at the staging prompt. *)
Variable stage : stage_result.
(** The exit status [os.system] returns for a command line. *)
Variable system : py_str -> Z.
(** [str(v)] of a decoded value that is not a string. *)
Variable py_str_json : json -> py_str.

Definition env_default (v : option py_str) (d : string) : py_str :=
  match v with Some s => s | None => lit d end.

(** [os.environ.get('SHELLMATE_SHOW_PROMPT', 'true').lower() in (...)]. *)
Definition show_prompt_env : bool :=
  str_in (py_lower (env_default (env_show_prompt env) "true"))
    [lit "true"; lit "1"; lit "yes"].

Definition prompt_char : py_str :=
  let shell_name := basename (env_default (env_shell env) "/bin/bash") in
  if str_in shell_name [lit "bash"; lit "sh"] then lit "$ "
  else if str_eqb shell_name (lit "zsh") then lit "% " else lit "$ ".

(** [ShellMate.query_ai]: the [command] field of the answer, or [None]
    after a diagnostic on standard error. *)
Definition query_ai : M (option json) :=
  match http with
  | HttpJson (JObj kv) =>
      retM (Some (match dict_get kv (lit "command") with Some v => v | None => JStr [] end))
  | HttpJson v =>
      print_err (lit "Unexpected error: '" ++ py_type_name v
                 ++ lit "' object has no attribute 'get'") ;; retM None
  | HttpBadJson msg => print_err (lit "JSON Error: " ++ msg) ;; retM None
  | HttpError code reason =>
      print_err (lit "HTTP Error " ++ code ++ lit ": " ++ reason) ;; retM None
  | UrlError reason => print_err (lit "URL Error: " ++ reason) ;; retM None
  | HttpOther msg => print_err (lit "Unexpected error: " ++ msg) ;; retM None
  end.

Definition display (command : json) : py_str :=
  match command with JStr s => s | v => py_str_json v end.

(** [ShellMate.execute_command(command, show_prompt)]. *)
Definition execute_command (command : json) (show_prompt : option bool) : M bool :=
  if negb (truthy command) then
    print_err (lit "No command generated") ;; retM false
  else
    print_out (lit "Generated command: " ++ display command) ;;
    let show := match show_prompt with Some b => b | None => show_prompt_env end in
    (if show then print_out (lit "Press Enter to execute, or Ctrl+C to cancel:")
     else retM tt) ;;
    write_out prompt_char ;;
    match stage with
    | Entered user_command =>
        match py_strip user_command with
        | _ :: _ =>
            fun w => ((system user_command =? 0)%Z,
                      mk_world (stdout w) (stderr w) (executed w ++ [user_command]))
        | [] => print_out (lit "No command to execute") ;; retM false
        end
    | Interrupted | EndOfInput =>
        print_out (newline ++ lit "Command cancelled") ;; retM false
    | StageError msg => print_err (lit "Error: " ++ msg) ;; retM false
    end.

(** [ShellMate.run(query, seamless)]. *)
Definition run (query : py_str) (seamless : bool) : M run_outcome :=
  command <~ query_ai ;
  match command with
  | Some c =>
      if truthy c then
        if seamless then
          match c with
          | JStr s => print_out (py_replace [92%N] [92%N; 92%N] s) ;; retM (Returned true)
          | _ => retM (Crashed AttributeError)  (* [.replace] of a non-string *)
          end
        else
          (if show_prompt_env then print_out (lit "Query: " ++ query) else retM tt) ;;
          b <~ execute_command c None ;
          retM (Returned b)
      else
        (if negb seamless then print_err (lit "Failed to get command from AI service")
         else retM tt) ;; retM (Returned false)
  | None =>
      (if negb seamless then print_err (lit "Failed to get command from AI service")
       else retM tt) ;; retM (Returned false)
  end.

(** [main()] after [parser.parse_args()]: the positional words and the
    [--seamless] flag.  It returns the process exit status.  [parser.error]
    prints the usage to standard error and exits with status 2; an exception
    escaping [run] ends the process with a traceback and status 1. *)
Definition main (words : list py_str) (seamless : bool) : M Z :=
  match words with
  | [] =>
      print_err (lit "usage: shellmate [-h] [--seamless] [query ...]") ;;
      print_err (lit "shellmate: error: No query provided. Use --help for usage information.") ;;
      retM 2%Z
  | _ =>
      let query := py_join (lit " ") words in
      match env_endpoint env with
      | None | Some [] =>
          print_err (lit "Error: SHELLMATE_API_ENDPOINT environment variable not set") ;;
          retM 1%Z
      | Some _ =>
          r <~ run query seamless ;
          match r with
          | Returned true => retM 0%Z
          | Returned false => retM 1%Z
          | Crashed _ => print_err (lit "Traceback (most recent call last): ...") ;; retM 1%Z
          end
      end
  end.
End CLI.

(** The attempts made and the delays slept, read off a loop trace. *)
Fixpoint attempts (tr : list bedrock_event) : nat :=
  match tr with
  | [] => 0
  | Invoke _ :: r => S (attempts r)
  | Sleep _ :: r => attempts r
  end.

Fixpoint delays (tr : list bedrock_event) : list Q :=
  match tr with
  | [] => []
  | Invoke _ :: r => delays r
  | Sleep d :: r => d :: delays r
  end.

(* ================================================================== *)
(** ** Concrete inputs used by the examples *)

Definition bedrock_answer (text : string) : invoke_result :=
  Invoked (Some (JObj [(lit "content", JArr [JObj [(lit "text", JStr (lit text))]])])).

(** Throttled on attempts 0-2, an answer on attempt 3. *)
Definition stub_throttled3 (n : nat) : invoke_result :=
  if n <? 3 then InvokeRaised (ClientError (lit "ThrottlingException") (lit "Too many requests"))
  else bedrock_answer "ls -la".

(** A validation error on every attempt. *)
Definition stub_validation (n : nat) : invoke_result :=
  InvokeRaised (ClientError (lit "ValidationException") (lit "Malformed input request")).

(** A service error that is neither throttling nor validation. *)
Definition stub_internal (n : nat) : invoke_result :=
  InvokeRaised (ClientError (lit "InternalServerException") (lit "Internal error")).

(** A read timeout of the HTTP client, which is not a [ClientError]. *)
Definition stub_timeout (n : nat) : invoke_result :=
  InvokeRaised (OtherException (lit "ReadTimeoutError")).

Definition clock_fixed (n : nat) : Q := (1760000000 + inject_Z (Z.of_nat n) * (3 # 10))%Q.

(** API Gateway events.  A REST (payload 1.0) request without a body carries
    [body: null]; an HTTP API (payload 2.0) request without a body has no
    [body] key. *)
Definition event_null_body : list (py_str * json) :=
  [(lit "httpMethod", JStr (lit "POST")); (lit "body", JNull)].

Definition preflight_event_rest : list (py_str * json) :=
  [(lit "httpMethod", JStr (lit "OPTIONS"));
   (lit "headers", JObj [(lit "Origin", JStr (lit "https://example.com"));
                         (lit "Access-Control-Request-Method", JStr (lit "POST"))]);
   (lit "body", JNull)].

Definition preflight_event_http : list (py_str * json) :=
  [(lit "requestContext", JObj [(lit "http", JObj [(lit "method", JStr (lit "OPTIONS"))])]);
   (lit "headers", JObj [(lit "origin", JStr (lit "https://example.com"))])].

Definition event_list_files : list (py_str * json) :=
  [(lit "query", JStr (lit "list files"))].

(** An observation of the world that a computation leaves unchanged. *)
Definition preserves {A X : Type} (obs : world -> X) (m : M A) : Prop :=
  forall w, obs (snd (m w)) = obs w.

Definition env_configured : cli_env :=
  mk_cli_env (Some (lit "https://abc123.execute-api.us-east-1.amazonaws.com/prod/generate"))
    None (Some (lit "/bin/bash")).

(* ================================================================== *)
(** ** Further views of the retry loop *)

(** The result a single call of [invoke_model] would give on its own. *)
Definition outcome_of (r : invoke_result) : pyres (option json) :=
  match r with
  | Invoked body => Ok body
  | InvokeRaised e => Raise e
  end.

(** The attempt indices of a loop trace, in order. *)
Fixpoint invokes (tr : list bedrock_event) : list nat :=
  match tr with
  | [] => []
  | Invoke n :: r => n :: invokes r
  | Sleep _ :: r => invokes r
  end.

Definition Qsum (l : list Q) : Q := fold_right Qplus 0%Q l.

(** The longest sleep after attempt [n] is [2 * 2^n + 0.5] (throttling with
    the largest jitter); [sleep_budget k n] adds it up for attempts
    [n .. n+k-1]. *)
Fixpoint sleep_budget (k n : nat) : Q :=
  match k with
  | O => 0%Q
  | S k' => (inject_Z (base_delay * 2 ^ Z.of_nat n) + (1 # 2) + sleep_budget k' (S n))%Q
  end.

(* ================================================================== *)
(** ** Prompt builder: the [user_prompt] f-string of generate_shell_command
    (lines 185-193) *)

(** An f-string field: a string is inserted as it is; [str_of] is [str()]
    of any other decoded value. *)
Definition fmt_value (str_of : json -> py_str) (v : json) : py_str :=
  match v with JStr s => s | _ => str_of v end.

Definition user_prompt (str_of : json -> py_str) (query : py_str) (context : json)
  : pyres py_str :=
  os_name <- py_get context (lit "os") (JStr (lit "posix")) ;;
  cwd <- py_get context (lit "cwd") (JStr (lit ".")) ;;
  Ok (lit "Convert this natural language request to a shell command:" ++ newline ++ newline
      ++ lit "Request: " ++ query ++ newline ++ newline
      ++ lit "Context:" ++ newline
      ++ lit "- Operating System: " ++ fmt_value str_of os_name ++ newline
      ++ lit "- Current Directory: " ++ fmt_value str_of cwd ++ newline ++ newline
      ++ lit "Shell command:").

(* ================================================================== *)
(** ** The request the CLI sends (ShellMate.query_ai, lines 29-35) *)

(** [{'query': q, 'context': {'os': os.name, 'cwd': os.getcwd()}}]. *)
Definition cli_payload (query os_name cwd : py_str) : json :=
  JObj [(lit "query", JStr query);
        (lit "context", JObj [(lit "os", JStr os_name); (lit "cwd", JStr cwd)])].

(** The trace of attempts [n, n+1, ...] with the sleep [d] of [ds] between
    each attempt and the next. *)
Fixpoint attempt_trace (n : nat) (ds : list Q) : list bedrock_event :=
  match ds with
  | [] => [Invoke n]
  | d :: ds' => Invoke n :: Sleep d :: attempt_trace (S n) ds'
  end.

(* ================================================================== *)
(** ** Further concrete inputs *)

(** Throttled on every attempt. *)
Definition stub_throttled_always (n : nat) : invoke_result :=
  InvokeRaised (ClientError (lit "ThrottlingException") (lit "Rate exceeded")).

(** An answer whose text is only an empty bash code block. *)
Definition stub_fence_only (n : nat) : invoke_result :=
  Invoked (Some (JObj [(lit "content", JArr [JObj [(lit "text", JStr (fence_bash ++ newline ++ fence))]])])).

(* ================================================================== *)
(** ** Lemmas on the string functions *)

Lemma is_prefix_spec : forall p s, is_prefix p s = true <-> exists b, s = p ++ b.
Proof.
  induction p as [|a p IH]; intros s; simpl.
  - split; [intros _; now exists s | auto].
  - destruct s as [|c s]; simpl.
    + split; [discriminate | intros [b Hb]; discriminate].
    + rewrite andb_true_iff, N.eqb_eq, IH. split.
      * intros [-> [b ->]]. now exists b.
      * intros [b Hb]. injection Hb as -> ->. eauto.
Qed.

Lemma has_infix_spec : forall p s,
  has_infix p s = true <-> exists a b, s = a ++ p ++ b.
Proof.
  intros p s; induction s as [|c s IH]; simpl; rewrite orb_true_iff.
  - rewrite is_prefix_spec. split.
    + intros [[b Hb] | H]; [now exists [], b | discriminate].
    + intros [a [b Hab]]. left. exists b.
      destruct a; [exact Hab | discriminate].
  - rewrite is_prefix_spec, IH. split.
    + intros [[b Hb] | [a [b Hab]]].
      * now exists [], b.
      * exists (c :: a), b. now rewrite Hab.
    + intros [[|c' a] [b Hab]].
      * left. now exists b.
      * right. injection Hab as -> Hab. eauto.
Qed.

Lemma lstrip_suffix : forall s, exists w, s = w ++ lstrip s.
Proof.
  induction s as [|c s [w Hw]]; simpl.
  - now exists [].
  - destruct (py_isspace c).
    + exists (c :: w). simpl. now rewrite <- Hw.
    + now exists [].
Qed.

Lemma lstrip_head : forall s c r, lstrip s = c :: r -> py_isspace c = false.
Proof.
  induction s as [|d s IH]; simpl; intros c r H; [discriminate|].
  destruct (py_isspace d) eqn:E; [eauto | now injection H as -> _].
Qed.

Lemma lstrip_fixed : forall s,
  (forall c r, s = c :: r -> py_isspace c = false) -> lstrip s = s.
Proof.
  intros [|c r] H; simpl; [reflexivity|].
  now rewrite (H c r eq_refl).
Qed.

Lemma lstrip_idem : forall s, lstrip (lstrip s) = lstrip s.
Proof. intros s. apply lstrip_fixed. apply lstrip_head. Qed.

Lemma py_strip_idem : forall s, py_strip (py_strip s) = py_strip s.
Proof.
  intros s. unfold py_strip, rstrip.
  set (a := lstrip s).
  assert (Hb : lstrip (rev (lstrip (rev a))) = rev (lstrip (rev a))).
  { apply lstrip_fixed. intros c r Hcr.
    destruct (lstrip_suffix (rev a)) as [w Hw].
    assert (Ha : a = rev (lstrip (rev a)) ++ rev w).
    { rewrite <- rev_app_distr, <- Hw, rev_involutive. reflexivity. }
    rewrite Hcr in Ha. simpl in Ha.
    apply (lstrip_head s c (r ++ rev w)). exact Ha. }
  rewrite Hb, rev_involutive, lstrip_idem. reflexivity.
Qed.

Lemma py_strip_infix : forall s, exists p q, s = p ++ py_strip s ++ q.
Proof.
  intros s. unfold py_strip, rstrip.
  destruct (lstrip_suffix s) as [p Hp].
  destruct (lstrip_suffix (rev (lstrip s))) as [w Hw].
  exists p, (rev w).
  rewrite <- rev_app_distr, <- Hw, rev_involutive. exact Hp.
Qed.

Lemma has_infix_strip : forall p s,
  has_infix p (py_strip s) = true -> has_infix p s = true.
Proof.
  intros p s H. apply has_infix_spec in H as [a [b Hab]].
  destruct (py_strip_infix s) as [x [y Hxy]].
  apply has_infix_spec. exists (x ++ a), (b ++ y).
  rewrite Hxy, Hab. now repeat rewrite <- app_assoc.
Qed.

Lemma replace_from_skip : forall o n k s,
  replace_from o n k s = replace_from o n 0 (skipn k s).
Proof.
  intros o n k s. revert k.
  induction s as [|c s IH]; intros [|k]; simpl; auto.
Qed.

Lemma replace_absent : forall o n s,
  has_infix o s = false -> py_replace o n s = s.
Proof.
  unfold py_replace. intros o n s.
  induction s as [|c s IH]; simpl; intros H; [reflexivity|].
  apply orb_false_iff in H as [H1 H2]. simpl in H1.
  rewrite H1. f_equal. now apply IH.
Qed.

Lemma has_infix_prefix : forall p q s,
  is_prefix p q = true -> has_infix q s = true -> has_infix p s = true.
Proof.
  intros p q s Hpq Hq.
  apply is_prefix_spec in Hpq as [c ->].
  apply has_infix_spec in Hq as [a [b ->]].
  apply has_infix_spec. exists a, (c ++ b). now rewrite <- !app_assoc.
Qed.

Lemma replace_fence_cons : forall c r,
  py_replace fence [] (c :: r) =
  if is_prefix fence (c :: r) then py_replace fence [] (skipn 2 r)
  else c :: py_replace fence [] r.
Proof.
  intros c r. unfold py_replace at 1. cbn [replace_from].
  destruct (is_prefix fence (c :: r)); [|reflexivity].
  rewrite replace_from_skip. reflexivity.
Qed.

(** Strong induction on the length of a string. *)
Lemma py_str_len_ind (P : py_str -> Prop) :
  (forall s, (forall t, List.length t < List.length s -> P t) -> P s) -> forall s, P s.
Proof.
  intros H s. remember (List.length s) as n eqn:E.
  revert s E. induction n as [n IH] using lt_wf_ind.
  intros s ->. apply H. intros t Ht. now apply (IH (List.length t)).
Qed.

Lemma replace_fence_head : forall s,
  is_prefix [96%N] (py_replace fence [] s) = true -> is_prefix [96%N] s = true.
Proof.
  induction s as [s IH] using py_str_len_ind.
  destruct s as [|c r]; [discriminate|].
  rewrite replace_fence_cons.
  destruct (is_prefix fence (c :: r)) eqn:E.
  - intros _. apply is_prefix_spec in E as [b Hb]. now rewrite Hb.
  - exact (fun H => H).
Qed.

Lemma replace_fence_head2 : forall s,
  is_prefix [96%N; 96%N] (py_replace fence [] s) = true ->
  is_prefix [96%N; 96%N] s = true.
Proof.
  intros [|c r]; [discriminate|].
  rewrite replace_fence_cons.
  destruct (is_prefix fence (c :: r)) eqn:E.
  - intros _. apply is_prefix_spec in E as [b Hb]. now rewrite Hb.
  - simpl. rewrite !andb_true_iff. intros [Hc H2].
    split; [exact Hc|]. apply replace_fence_head. simpl. now rewrite H2.
Qed.

(** After [.replace('```', '')] no fence is left in the text. *)
Lemma is_prefix_fence_cons : forall c x,
  is_prefix fence (c :: x) = (96 =? c)%N && is_prefix [96%N; 96%N] x.
Proof. reflexivity. Qed.

Lemma replace_fence_clean : forall s,
  has_infix fence (py_replace fence [] s) = false.
Proof.
  induction s as [s IH] using py_str_len_ind.
  destruct s as [|c r]; [reflexivity|].
  rewrite replace_fence_cons.
  destruct (is_prefix fence (c :: r)) eqn:E.
  - apply IH. cbn [List.length]. rewrite length_skipn. lia.
  - cbn [has_infix]. rewrite (IH r) by (simpl; lia). rewrite orb_false_r.
    destruct (is_prefix fence (c :: py_replace fence [] r)) eqn:F; [|reflexivity].
    exfalso. rewrite is_prefix_fence_cons in E, F.
    apply andb_true_iff in F as [Hc G].
    apply replace_fence_head2 in G. rewrite Hc, G in E. discriminate.
Qed.

Lemma sanitize_clean : forall x, has_infix fence (sanitize x) = false.
Proof.
  intros x. unfold sanitize.
  destruct (has_infix fence (py_strip _)) eqn:E; [|reflexivity].
  apply has_infix_strip in E. now rewrite replace_fence_clean in E.
Qed.

Lemma sanitize_no_fence_bash : forall x, has_infix fence_bash (sanitize x) = false.
Proof.
  intros x. destruct (has_infix fence_bash (sanitize x)) eqn:E; [|reflexivity].
  apply (has_infix_prefix fence fence_bash) in E; [|reflexivity].
  now rewrite sanitize_clean in E.
Qed.

(* ================================================================== *)
(** ** Lemmas on the retry loop *)

Lemma py_mod_half_bounds : forall t, (0 <= py_mod_half t < 1 # 2)%Q.
Proof.
  intros t. unfold py_mod_half.
  pose proof (Qfloor_le (t / (1 # 2))) as H1.
  pose proof (Qlt_floor (t / (1 # 2))) as H2.
  rewrite inject_Z_plus in H2.
  set (f := inject_Z (Qfloor (t / (1 # 2)))) in *.
  assert (Ht : (t / (1 # 2) == 2 * t)%Q) by (field).
  rewrite Ht in H1, H2. change (inject_Z 1) with 1%Q in H2.
  split; lra.
Qed.

Lemma retry_loop_attempts : forall im clk fuel n,
  attempts (fst (retry_loop im clk fuel n)) <= fuel.
Proof.
  intros im clk fuel. induction fuel as [|fuel IH]; intros n; [simpl; lia|].
  cbn [retry_loop].
  destruct (im n) as [b|[| | | | | |code msg|name]]; try (simpl; lia).
  specialize (IH (S n)). destruct (retry_loop im clk fuel (S n)) as [tr r].
  simpl in IH.
  destruct (str_in code throttle_codes && (n <? max_retries)); [simpl; lia|].
  destruct (str_eqb code (lit "ValidationException")); [simpl; lia|].
  destruct (n <? max_retries); simpl; lia.
Qed.

Lemma retry_loop_throttled : forall im clk fuel n code msg,
  im n = InvokeRaised (ClientError code msg) ->
  str_in code throttle_codes = true -> n < max_retries ->
  retry_loop im clk (S fuel) n =
  (Invoke n :: Sleep (throttle_delay n (clk n)) :: fst (retry_loop im clk fuel (S n)),
   snd (retry_loop im clk fuel (S n))).
Proof.
  intros im clk fuel n code msg Hn Hc Hlt. cbn [retry_loop]. rewrite Hn, Hc.
  apply Nat.ltb_lt in Hlt. rewrite Hlt. cbn [andb].
  destruct (retry_loop im clk fuel (S n)). reflexivity.
Qed.

Lemma retry_loop_other_client_error : forall im clk fuel n code msg,
  im n = InvokeRaised (ClientError code msg) ->
  str_in code throttle_codes = false ->
  str_eqb code (lit "ValidationException") = false -> n < max_retries ->
  retry_loop im clk (S fuel) n =
  (Invoke n :: Sleep (retry_delay n) :: fst (retry_loop im clk fuel (S n)),
   snd (retry_loop im clk fuel (S n))).
Proof.
  intros im clk fuel n code msg Hn Hc Hv Hlt. cbn [retry_loop]. rewrite Hn, Hc, Hv.
  apply Nat.ltb_lt in Hlt. rewrite Hlt. cbn [andb].
  destruct (retry_loop im clk fuel (S n)). reflexivity.
Qed.

Lemma retry_loop_validation : forall im clk fuel n msg,
  im n = InvokeRaised (ClientError (lit "ValidationException") msg) ->
  retry_loop im clk (S fuel) n =
  ([Invoke n], Raise (ClientError (lit "ValidationException") msg)).
Proof.
  intros im clk fuel n msg Hn. cbn [retry_loop]. rewrite Hn. reflexivity.
Qed.

Lemma retry_loop_not_client_error : forall im clk fuel n e,
  im n = InvokeRaised e -> (forall code msg, e <> ClientError code msg) ->
  retry_loop im clk (S fuel) n = ([Invoke n], Raise e).
Proof.
  intros im clk fuel n e Hn He. cbn [retry_loop]. rewrite Hn.
  destruct e; try reflexivity. exfalso. eapply He. reflexivity.
Qed.

Lemma throttle_delay_bounds : forall n t,
  (inject_Z (base_delay * 2 ^ Z.of_nat n) <= throttle_delay n t <
   inject_Z (base_delay * 2 ^ Z.of_nat n) + (1 # 2))%Q.
Proof.
  intros n t. unfold throttle_delay.
  destruct (py_mod_half_bounds t). split; lra.
Qed.

(* ================================================================== *)
(** ** Claims on the backend invoker *)

(** C1: for every backend, after a throttling error at attempt
    [n < max_retries] the loop sleeps [base_delay * 2^n + jitter], jitter in
    [0, 0.5), and makes attempt [n+1]; for a backend throttled (with any of
    the throttling codes) on attempts 0-2 that answers on attempt 3 the loop
    returns the answer after exactly 4 attempts, sleeping 2, 4 and 8 plus
    jitter, delays that increase. *)
Theorem invoker_throttle_backoff (im : nat -> invoke_result) (clk : nat -> Q) :
  (forall fuel n code msg,
     im n = InvokeRaised (ClientError code msg) ->
     str_in code throttle_codes = true -> n < max_retries ->
     retry_loop im clk (S fuel) n =
     (Invoke n :: Sleep (throttle_delay n (clk n)) :: fst (retry_loop im clk fuel (S n)),
      snd (retry_loop im clk fuel (S n)))) /\
  (forall n t,
     (inject_Z (base_delay * 2 ^ Z.of_nat n) <= throttle_delay n t <
      inject_Z (base_delay * 2 ^ Z.of_nat n) + (1 # 2))%Q) /\
  (forall answer : option json,
     (forall n, n < 3 -> exists code msg,
        im n = InvokeRaised (ClientError code msg) /\ str_in code throttle_codes = true) ->
     im 3 = Invoked answer ->
     snd (invoker im clk) = Ok answer /\
     attempts (fst (invoker im clk)) = 4 /\
     fst (invoker im clk) =
       [Invoke 0; Sleep (throttle_delay 0 (clk 0)); Invoke 1; Sleep (throttle_delay 1 (clk 1));
        Invoke 2; Sleep (throttle_delay 2 (clk 2)); Invoke 3] /\
     map (fun n : nat => inject_Z (base_delay * 2 ^ Z.of_nat n)) [0%nat; 1%nat; 2%nat] =
       [inject_Z 2; inject_Z 4; inject_Z 8] /\
     Qlt (throttle_delay 0 (clk 0)) (throttle_delay 1 (clk 1)) /\
     Qlt (throttle_delay 1 (clk 1)) (throttle_delay 2 (clk 2))).
Proof.
  split; [|split].
  - intros fuel n code msg. apply retry_loop_throttled.
  - apply throttle_delay_bounds.
  - intros answer Hthrottled Hanswer.
    assert (T : forall fuel n, n < 3 ->
      retry_loop im clk (S fuel) n =
      (Invoke n :: Sleep (throttle_delay n (clk n)) :: fst (retry_loop im clk fuel (S n)),
       snd (retry_loop im clk fuel (S n)))).
    { intros fuel n Hn. destruct (Hthrottled n Hn) as [code [msg [E Hc]]].
      eapply retry_loop_throttled; eauto. unfold max_retries. lia. }
    assert (H3 : retry_loop im clk 3 3 = ([Invoke 3], Ok answer))
      by (cbn [retry_loop]; rewrite Hanswer; reflexivity).
    assert (Hinv : invoker im clk =
      ([Invoke 0; Sleep (throttle_delay 0 (clk 0)); Invoke 1; Sleep (throttle_delay 1 (clk 1));
        Invoke 2; Sleep (throttle_delay 2 (clk 2)); Invoke 3], Ok answer)).
    { unfold invoker, max_retries.
      rewrite (T 5 0), (T 4 1), (T 3 2) by lia.
      rewrite H3. reflexivity. }
    rewrite Hinv. split; [|split; [|split; [|split; [|split]]]].
    + reflexivity.
    + reflexivity.
    + reflexivity.
    + reflexivity.
    + pose proof (throttle_delay_bounds 0 (clk 0)) as B0.
      pose proof (throttle_delay_bounds 1 (clk 1)) as B1.
      simpl in B0, B1. unfold inject_Z in B0, B1. lra.
    + pose proof (throttle_delay_bounds 1 (clk 1)) as B1.
      pose proof (throttle_delay_bounds 2 (clk 2)) as B2.
      simpl in B1, B2. unfold inject_Z in B1, B2. lra.
Qed.

(** C2: a validation error on attempt 0 ends the loop at once: one attempt,
    no sleep, the [ValidationException] re-raised, and
    [generate_shell_command] gives [None]. *)
Theorem invoker_validation_single_attempt (im : nat -> invoke_result) (clk : nat -> Q)
  (msg : py_str)
  (Hvalidation : im 0 = InvokeRaised (ClientError (lit "ValidationException") msg)) :
  invoker im clk = ([Invoke 0], Raise (ClientError (lit "ValidationException") msg)) /\
  attempts (fst (invoker im clk)) = 1 /\ delays (fst (invoker im clk)) = [] /\
  (forall query kv,
     generate_shell_command im clk query (JObj kv) = ([Invoke 0], Ok None)).
Proof.
  assert (H : invoker im clk = ([Invoke 0], Raise (ClientError (lit "ValidationException") msg)))
    by (apply retry_loop_validation; exact Hvalidation).
  rewrite H. repeat split.
  intros query kv. unfold generate_shell_command. rewrite H. reflexivity.
Qed.

(** C3 (amended): a [ClientError] that is neither throttling nor validation at
    attempt [n < max_retries] is followed by a sleep of [1 + 0.5 * n] and
    attempt [n+1]; an exception other than [ClientError] (a connection or
    read timeout) ends the loop at once; at most 6 attempts are made. *)
Theorem invoker_transient_backoff (im : nat -> invoke_result) (clk : nat -> Q) :
  (forall fuel n code msg,
     im n = InvokeRaised (ClientError code msg) ->
     str_in code throttle_codes = false ->
     str_eqb code (lit "ValidationException") = false -> n < max_retries ->
     retry_loop im clk (S fuel) n =
     (Invoke n :: Sleep (1 + inject_Z (Z.of_nat n) * (1 # 2))%Q :: fst (retry_loop im clk fuel (S n)),
      snd (retry_loop im clk fuel (S n)))) /\
  (forall fuel n e,
     im n = InvokeRaised e -> (forall code msg, e <> ClientError code msg) ->
     retry_loop im clk (S fuel) n = ([Invoke n], Raise e)) /\
  attempts (fst (invoker im clk)) <= 6.
Proof.
  split; [|split].
  - intros fuel n code msg H1 H2 H3 H4. now apply (retry_loop_other_client_error im clk fuel n code msg).
  - intros. now apply retry_loop_not_client_error.
  - apply retry_loop_attempts.
Qed.

(** C3 counterexample: a backend call that keeps timing out (not a
    [ClientError]) is attempted once and never retried, no sleep. *)
Lemma invoker_timeout_not_retried :
  attempts (fst (invoker stub_timeout clock_fixed)) = 1 /\
  delays (fst (invoker stub_timeout clock_fixed)) = [] /\
  snd (invoker stub_timeout clock_fixed) = Raise (OtherException (lit "ReadTimeoutError")).
Proof. repeat split. Qed.

Lemma invoker_throttle_backoff_witness :
  attempts (fst (invoker stub_throttled3 clock_fixed)) = 4 /\
  snd (invoker stub_throttled3 clock_fixed) =
  Ok (Some (JObj [(lit "content", JArr [JObj [(lit "text", JStr (lit "ls -la"))]])])).
Proof.
  assert (Hthr : forall n, n < 3 -> exists code msg,
    stub_throttled3 n = InvokeRaised (ClientError code msg) /\
    str_in code throttle_codes = true).
  { intros n Hn. exists (lit "ThrottlingException"), (lit "Too many requests").
    unfold stub_throttled3. apply Nat.ltb_lt in Hn. rewrite Hn. split; reflexivity. }
  destruct (invoker_throttle_backoff stub_throttled3 clock_fixed) as [_ [_ H]].
  destruct (H _ Hthr eq_refl) as [Hr [Ha _]].
  split; [exact Ha | exact Hr].
Defined.

Lemma invoker_validation_single_attempt_witness :
  attempts (fst (invoker stub_validation clock_fixed)) = 1 /\
  delays (fst (invoker stub_validation clock_fixed)) = [].
Proof.
  destruct (invoker_validation_single_attempt stub_validation clock_fixed _ eq_refl)
    as [_ [Ha [Hd _]]].
  split; [exact Ha | exact Hd].
Defined.

Lemma invoker_transient_backoff_witness :
  retry_loop stub_internal clock_fixed 6 0 =
  (Invoke 0 :: Sleep (1 + inject_Z (Z.of_nat 0%nat) * (1 # 2))%Q
     :: fst (retry_loop stub_internal clock_fixed 5 1),
   snd (retry_loop stub_internal clock_fixed 5 1)).
Proof.
  destruct (invoker_transient_backoff stub_internal clock_fixed) as [H _].
  apply H with (code := lit "InternalServerException") (msg := lit "Internal error");
    [reflexivity | reflexivity | reflexivity | cbv; lia].
Defined.

(* ================================================================== *)
(** ** Claim on the response sanitizer *)

(** C5 (amended): [sanitize] is total and idempotent, leaves no ``` in its
    output, and strips a bare fence and a [bash]-tagged fence. *)
Theorem sanitize_idempotent_bash_fence :
  (forall x, sanitize (sanitize x) = sanitize x) /\
  (forall x, has_infix fence (sanitize x) = false) /\
  sanitize (lit "```bash" ++ newline ++ lit "ls -la" ++ newline ++ fence) = lit "ls -la" /\
  sanitize (fence ++ newline ++ lit "ls -la" ++ newline ++ fence) = lit "ls -la".
Proof.
  split; [|split; [exact sanitize_clean | split; reflexivity]].
  intros x. set (y := sanitize x).
  assert (Hs : py_strip y = y) by apply py_strip_idem.
  unfold sanitize at 1. rewrite Hs.
  rewrite (replace_absent fence_bash [] y) by apply sanitize_no_fence_bash.
  rewrite (replace_absent fence [] y) by apply sanitize_clean.
  exact Hs.
Qed.

(** C5 counterexample: a fence tagged [sh] keeps its tag in the output. *)
Lemma sanitize_keeps_other_language_tag :
  sanitize (lit "```sh" ++ newline ++ lit "ls" ++ newline ++ fence) = lit "sh" ++ newline ++ lit "ls" /\
  sanitize (lit "```sh" ++ newline ++ lit "ls" ++ newline ++ fence) <> lit "ls".
Proof. split; [reflexivity | discriminate]. Qed.

(* ================================================================== *)
(** ** Lemmas on the adapter *)

Lemma lambda_handler_cases : forall jl im clk ev,
  let r := snd (lambda_handler jl im clk ev) in
  r = resp_missing_query \/ r = resp_generation_failed \/ r = resp_internal_error \/
  exists c q, c <> [] /\ r = resp_command c q.
Proof.
  intros jl im clk ev. unfold lambda_handler, handler_try.
  destruct (parse_request jl ev) as [[query ctx]|e]; simpl; [|auto].
  destruct query as [|ch query]; simpl; [auto|].
  destruct (generate_shell_command im clk (ch :: query) ctx) as [tr [[[|c cs]|]|e]]; simpl; auto.
  right; right; right. exists (c :: cs), (ch :: query). split; [discriminate | reflexivity].
Qed.

(** With a JSON-object body, a missing or blank [query] gives the 400
    response and the backend is not called. *)
Lemma handler_blank_query_object_body : forall jl im clk ev kv,
  dict_get ev (lit "body") = Some (JObj kv) ->
  (dict_get kv (lit "query") = None \/
   exists s, dict_get kv (lit "query") = Some (JStr s) /\ py_strip s = []) ->
  lambda_handler jl im clk ev = ([], resp_missing_query).
Proof.
  intros jl im clk ev kv Hb Hq. unfold lambda_handler, handler_try, parse_request.
  rewrite Hb. cbn -[dict_get lit py_strip].
  destruct Hq as [Hq | [s [Hq Hs]]]; rewrite Hq; cbn -[dict_get lit py_strip].
  - destruct (dict_get kv (lit "context")); reflexivity.
  - rewrite Hs. destruct (dict_get kv (lit "context")); reflexivity.
Qed.

(* ================================================================== *)
(** ** Claims on the adapter *)

(** C4 (code bug): a request with no body (API Gateway's [body: null]) has no
    query, yet the handler calls [.get] on [None] and answers 500
    "Internal server error" instead of 400; the backend is not called. *)
Theorem lambda_handler_null_body_internal_error :
  forall jl im clk,
  lambda_handler jl im clk event_null_body = ([], resp_internal_error) /\
  statusCode resp_internal_error = 500%Z.
Proof. split; reflexivity. Qed.

(** C8: every 500 response is one of the two fixed error bodies; a failed
    backend call gives such a response, and so does a backend answer that
    cannot be read (no JSON body, no [content[0].text], a text that is not a
    string) or that is empty after cleanup; an exception while reading the
    request or building the prompt gives "Internal server error"; no
    exception leaves the handler. *)
Theorem lambda_handler_generic_server_error (jl : py_str -> option json)
  (im : nat -> invoke_result) (clk : nat -> Q) (ev : list (py_str * json)) :
  (statusCode (snd (lambda_handler jl im clk ev)) = 500%Z ->
   snd (lambda_handler jl im clk ev) = resp_generation_failed \/
   snd (lambda_handler jl im clk ev) = resp_internal_error) /\
  (forall query ctx e,
     parse_request jl ev = Ok (query, ctx) -> query <> [] ->
     snd (invoker im clk) = Raise e ->
     snd (lambda_handler jl im clk ev) = resp_generation_failed \/
     snd (lambda_handler jl im clk ev) = resp_internal_error) /\
  (forall query ctx b,
     parse_request jl ev = Ok (query, ctx) -> query <> [] ->
     snd (invoker im clk) = Ok b ->
     ((exists e, extract_text b = Raise e) \/
      (exists t, extract_text b = Ok t /\ sanitize t = [])) ->
     snd (lambda_handler jl im clk ev) = resp_generation_failed \/
     snd (lambda_handler jl im clk ev) = resp_internal_error) /\
  (forall query ctx e,
     parse_request jl ev = Ok (query, ctx) -> query <> [] ->
     snd (generate_shell_command im clk query ctx) = Raise e ->
     snd (lambda_handler jl im clk ev) = resp_internal_error) /\
  (forall e, parse_request jl ev = Raise e ->
     lambda_handler jl im clk ev = ([], resp_internal_error)).
Proof.
  split; [|split; [|split; [|split]]].
  - intros H500. destruct (lambda_handler_cases jl im clk ev) as [H|[H|[H|[c [q [_ H]]]]]];
      rewrite H in *; auto; discriminate H500.
  - intros query ctx e Hp Hq He. unfold lambda_handler, handler_try. rewrite Hp.
    destruct query as [|ch query]; [congruence|].
    unfold generate_shell_command. destruct ctx; simpl; auto.
    destruct (invoker im clk) as [tr r]. simpl in He. subst r. simpl. auto.
  - intros query ctx b Hp Hq Hb Hx. unfold lambda_handler, handler_try. rewrite Hp.
    destruct query as [|ch query]; [congruence|].
    unfold generate_shell_command. destruct ctx; simpl; auto.
    destruct (invoker im clk) as [tr r]. simpl in Hb. subst r. left.
    destruct Hx as [[e He] | [t [Ht Hs]]]; rewrite ?He, ?Ht; simpl; rewrite ?Hs; reflexivity.
  - intros query ctx e Hp Hq He. unfold lambda_handler, handler_try. rewrite Hp.
    destruct query as [|ch query]; [congruence|].
    destruct (generate_shell_command im clk (ch :: query) ctx) as [tr r].
    simpl in He. subst r. reflexivity.
  - intros e Hp. unfold lambda_handler, handler_try. rewrite Hp. reflexivity.
Qed.

Lemma lambda_handler_generic_server_error_witness :
  (snd (lambda_handler (fun _ => None) stub_validation clock_fixed event_list_files)
     = resp_generation_failed \/
   snd (lambda_handler (fun _ => None) stub_validation clock_fixed event_list_files)
     = resp_internal_error) /\
  (snd (lambda_handler (fun _ => None) stub_fence_only clock_fixed event_list_files)
     = resp_generation_failed \/
   snd (lambda_handler (fun _ => None) stub_fence_only clock_fixed event_list_files)
     = resp_internal_error).
Proof.
  split.
  - destruct (lambda_handler_generic_server_error (fun _ => None) stub_validation clock_fixed
                event_list_files) as [_ [H _]].
    apply (H (lit "list files") (JObj []) (ClientError (lit "ValidationException")
             (lit "Malformed input request"))); [reflexivity | discriminate | reflexivity].
  - destruct (lambda_handler_generic_server_error (fun _ => None) stub_fence_only clock_fixed
                event_list_files) as [_ [_ [H _]]].
    apply (H (lit "list files") (JObj [])
             (Some (JObj [(lit "content", JArr [JObj [(lit "text",
                JStr (fence_bash ++ newline ++ fence))]])])));
      [reflexivity | discriminate | reflexivity |].
    right. exists (fence_bash ++ newline ++ fence). split; [reflexivity | vm_compute; reflexivity].
Defined.

(** C9 (code bug): [handle_cors_preflight] builds the preflight answer, but
    [lambda_handler], the only entry point, never calls it: an OPTIONS
    preflight gets 500 (REST event, [body: null]) or 400 (HTTP API event,
    no body). *)
Theorem cors_preflight_not_dispatched :
  forall jl im clk,
  statusCode handle_cors_preflight = 200%Z /\ body handle_cors_preflight = BodyText [] /\
  In (lit "Access-Control-Allow-Methods", lit "POST, GET, OPTIONS") (headers handle_cors_preflight) /\
  lambda_handler jl im clk preflight_event_rest = ([], resp_internal_error) /\
  lambda_handler jl im clk preflight_event_http = ([], resp_missing_query).
Proof. intros jl im clk. repeat split; try reflexivity. simpl. auto. Qed.

(* ================================================================== *)
(** ** Lemmas on the CLI *)

Section Preserves.
Context {X : Type} (obs : world -> X).

Lemma preserves_ret {A} (a : A) : preserves obs (retM a).
Proof. intros w. reflexivity. Qed.

Lemma preserves_bind {A B} (m : M A) (k : A -> M B) :
  preserves obs m -> (forall a, preserves obs (k a)) -> preserves obs (bindM m k).
Proof.
  intros Hm Hk w. unfold bindM. specialize (Hm w).
  destruct (m w) as [a w']. simpl in Hm. rewrite Hk. exact Hm.
Qed.

Lemma preserves_if {A} (b : bool) (m1 m2 : M A) :
  preserves obs m1 -> preserves obs m2 -> preserves obs (if b then m1 else m2).
Proof. destruct b; auto. Qed.
End Preserves.

Lemma print_err_stdout : forall s, preserves stdout (print_err s).
Proof. intros s w. reflexivity. Qed.

Lemma print_err_executed : forall s, preserves executed (print_err s).
Proof. intros s w. reflexivity. Qed.

Lemma print_out_executed : forall s, preserves executed (print_out s).
Proof. intros s w. reflexivity. Qed.

Lemma write_out_executed : forall s, preserves executed (write_out s).
Proof. intros s w. reflexivity. Qed.

Create HintDb effects.
#[local] Hint Resolve preserves_ret preserves_bind preserves_if print_err_stdout
  print_err_executed print_out_executed write_out_executed : effects.

Lemma query_ai_stdout : forall http, preserves stdout (query_ai http).
Proof.
  intros http. unfold query_ai.
  destruct http as [[]| | | |]; auto with effects.
Qed.

Lemma query_ai_executed : forall http, preserves executed (query_ai http).
Proof.
  intros http. unfold query_ai.
  destruct http as [[]| | | |]; auto with effects.
Qed.

Lemma query_ai_some_pure : forall http w v,
  fst (query_ai http w) = Some v -> snd (query_ai http w) = w.
Proof.
  intros http w v. unfold query_ai.
  destruct http as [[]| | | |]; simpl; try discriminate; reflexivity.
Qed.

Lemma execute_command_no_exec : forall env stage system pj command show,
  (match stage with Entered line => py_strip line = [] | _ => True end) ->
  preserves executed (execute_command env stage system pj command show).
Proof.
  intros env stage system pj command show Hst. unfold execute_command.
  apply preserves_if; [auto with effects|].
  apply preserves_bind; [auto with effects | intros []].
  apply preserves_bind; [apply preserves_if; auto with effects | intros []].
  apply preserves_bind; [auto with effects | intros []].
  destruct stage as [line| | |msg]; auto with effects.
  rewrite Hst. auto with effects.
Qed.

Lemma execute_command_false : forall env stage system pj command show w,
  (match stage with Entered line => py_strip line = [] | _ => True end) ->
  fst (execute_command env stage system pj command show w) = false.
Proof.
  intros env stage system pj command show w Hst. unfold execute_command, bindM.
  destruct (negb (truthy command)); [reflexivity|].
  destruct (match show with Some b => b | None => show_prompt_env env end);
    destruct stage as [line| | |msg]; try reflexivity;
    simpl; rewrite Hst; reflexivity.
Qed.

Lemma run_interactive_no_exec : forall env http stage system pj query w,
  (match stage with Entered line => py_strip line = [] | _ => True end) ->
  fst (run env http stage system pj query false w) = Returned false /\
  executed (snd (run env http stage system pj query false w)) = executed w.
Proof.
  intros env http stage system pj query w Hst. unfold run, bindM.
  pose proof (query_ai_executed http w) as Hq.
  destruct (query_ai http w) as [[c|] w1]. simpl in Hq.
  - destruct (truthy c); [|simpl; auto].
    pose proof (execute_command_no_exec env stage system pj c None Hst) as He.
    pose proof (execute_command_false env stage system pj c None) as Hf.
    destruct (show_prompt_env env); simpl;
    match goal with
    | |- context [execute_command env stage system pj c None ?w0] =>
        specialize (He w0); specialize (Hf w0 Hst);
        destruct (execute_command env stage system pj c None w0) as [b w2]
    end; simpl in *; subst; split; congruence.
  - simpl. auto.
Qed.

Lemma run_failed_query : forall env http stage system pj query seamless w,
  (fst (query_ai http w) = None \/ exists v, fst (query_ai http w) = Some v /\ truthy v = false) ->
  fst (run env http stage system pj query seamless w) = Returned false.
Proof.
  intros env http stage system pj query seamless w Hf. unfold run, bindM.
  destruct (query_ai http w) as [o w1]. simpl in Hf.
  destruct Hf as [-> | [v [-> Hv]]]; [|rewrite Hv];
    destruct seamless; reflexivity.
Qed.

(* ================================================================== *)
(** ** Claims on the CLI *)

(** C6 (amended): in seamless mode a non-empty string command is written to
    standard output with every backslash doubled and a newline, nothing goes
    to standard error, and [run] returns true; when no usable command comes
    back (no answer, or an empty or false value) [run] returns false and adds
    nothing to standard output, but [query_ai]'s diagnostic for an HTTP, URL,
    JSON or other error is still written to standard error. *)
Theorem run_seamless_contract (env : cli_env) (http : http_result)
  (stage : stage_result) (system : py_str -> Z) (pj : json -> py_str)
  (query : py_str) (w : world) :
  (forall s, fst (query_ai http w) = Some (JStr s) -> s <> [] ->
     run env http stage system pj query true w =
     (Returned true,
      mk_world (stdout w ++ py_replace [92%N] [92%N; 92%N] s ++ newline) (stderr w) (executed w))) /\
  ((fst (query_ai http w) = None \/
    exists v, fst (query_ai http w) = Some v /\ truthy v = false) ->
   run env http stage system pj query true w = (Returned false, snd (query_ai http w))) /\
  stdout (snd (query_ai http w)) = stdout w /\
  executed (snd (query_ai http w)) = executed w.
Proof.
  split; [|split; [|split; [apply query_ai_stdout | apply query_ai_executed]]].
  - intros s Hs Hne. pose proof (query_ai_some_pure http w _ Hs) as Hw.
    unfold run, bindM. destruct (query_ai http w) as [o w1]. simpl in Hs, Hw. subst o w1.
    destruct s as [|ch s]; [congruence|]. reflexivity.
  - intros Hf. unfold run, bindM. destruct (query_ai http w) as [o w1]. simpl in Hf.
    destruct Hf as [-> | [v [-> Hv]]]; [|rewrite Hv]; reflexivity.
Qed.

Lemma run_seamless_contract_witness :
  run env_configured (HttpJson (JObj [(lit "command", JStr (lit "grep -E 'a\.b' f"))]))
      Interrupted (fun _ => 0%Z) (fun _ => []) (lit "find a.b") true empty_world =
  (Returned true,
   mk_world ([] ++ py_replace [92%N] [92%N; 92%N] (lit "grep -E 'a\.b' f") ++ newline) [] []).
Proof.
  destruct (run_seamless_contract env_configured
              (HttpJson (JObj [(lit "command", JStr (lit "grep -E 'a\.b' f"))]))
              Interrupted (fun _ => 0%Z) (fun _ => []) (lit "find a.b") empty_world) as [H _].
  apply H; [reflexivity | discriminate].
Defined.

(** C6 counterexample: a failing service call in seamless mode writes an
    error message to standard error. *)
Lemma run_seamless_http_error_message :
  run env_configured (HttpError (lit "500") (lit "Internal Server Error")) Interrupted
      (fun _ => 0%Z) (fun _ => []) (lit "list files") true empty_world =
  (Returned false, mk_world [] (lit "HTTP Error 500: Internal Server Error" ++ newline) []) /\
  lit "HTTP Error 500: Internal Server Error" ++ newline <> [].
Proof. split; [reflexivity | discriminate]. Qed.

(** C7 (amended): with no query words [parser.error] ends the process with
    status 2; otherwise the exit status is 1 when the endpoint is not set,
    0 when [run] returns true and 1 otherwise, in particular 1 after a failed
    or empty answer, and 1 with no command run when the operator interrupts
    or ends the input at the staging prompt. *)
Theorem main_exit_status (env : cli_env) (http : http_result) (stage : stage_result)
  (system : py_str -> Z) (pj : json -> py_str) (w : world) :
  (forall seamless, fst (main env http stage system pj [] seamless w) = 2%Z) /\
  (forall words seamless, words <> [] ->
     env_endpoint env = None \/ env_endpoint env = Some [] ->
     fst (main env http stage system pj words seamless w) = 1%Z) /\
  (forall words seamless e, words <> [] -> env_endpoint env = Some e -> e <> [] ->
     fst (main env http stage system pj words seamless w) =
     match fst (run env http stage system pj (py_join (lit " ") words) seamless w) with
     | Returned true => 0%Z
     | _ => 1%Z
     end) /\
  (forall words seamless e, words <> [] -> env_endpoint env = Some e -> e <> [] ->
     (fst (query_ai http w) = None \/
      exists v, fst (query_ai http w) = Some v /\ truthy v = false) ->
     fst (main env http stage system pj words seamless w) = 1%Z) /\
  (forall words e, words <> [] -> env_endpoint env = Some e -> e <> [] ->
     (stage = Interrupted \/ stage = EndOfInput) ->
     fst (main env http stage system pj words false w) = 1%Z /\
     executed (snd (main env http stage system pj words false w)) = executed w).
Proof.
  assert (Hrun : forall words seamless e, words <> [] -> env_endpoint env = Some e -> e <> [] ->
     main env http stage system pj words seamless w =
     (let (r, w') := run env http stage system pj (py_join (lit " ") words) seamless w in
      match r with
      | Returned true => retM 0%Z w'
      | Returned false => retM 1%Z w'
      | Crashed _ => (print_err (lit "Traceback (most recent call last): ...") ;; retM 1%Z) w'
      end)).
  { intros words seamless e Hw He Hne. unfold main.
    destruct words as [|wd words]; [congruence|]. rewrite He.
    destruct e as [|c e]; [congruence|]. unfold bindM.
    destruct (run _ _ _ _ _ _ _ _) as [[[|]|x] w']; reflexivity. }
  split; [|split; [|split; [|split]]].
  - intros seamless. reflexivity.
  - intros words seamless Hw He. unfold main.
    destruct words as [|wd words]; [congruence|].
    destruct He as [-> | ->]; reflexivity.
  - intros words seamless e Hw He Hne. rewrite (Hrun words seamless e Hw He Hne).
    destruct (run _ _ _ _ _ _ _ _) as [[[|]|x] w']; reflexivity.
  - intros words seamless e Hw He Hne Hf. rewrite (Hrun words seamless e Hw He Hne).
    pose proof (run_failed_query env http stage system pj (py_join (lit " ") words) seamless w Hf) as Hr.
    destruct (run _ _ _ _ _ _ _ _) as [r w']. simpl in Hr. subst r. reflexivity.
  - intros words e Hw He Hne Hst. rewrite (Hrun words false e Hw He Hne).
    assert (Hm : match stage with Entered line => py_strip line = [] | _ => True end)
      by (destruct Hst as [-> | ->]; exact I).
    pose proof (run_interactive_no_exec env http stage system pj (py_join (lit " ") words) w Hm)
      as [Hr Hx].
    destruct (run _ _ _ _ _ _ _ _) as [r w']. simpl in Hr, Hx. subst r.
    split; [reflexivity | exact Hx].
Qed.

Lemma main_exit_status_witness :
  fst (main env_configured (HttpJson (JObj [(lit "command", JStr (lit "ls -la"))])) Interrupted
         (fun _ => 0%Z) (fun _ => []) [lit "list"; lit "files"] false empty_world) = 1%Z /\
  executed (snd (main env_configured (HttpJson (JObj [(lit "command", JStr (lit "ls -la"))]))
         Interrupted (fun _ => 0%Z) (fun _ => []) [lit "list"; lit "files"] false empty_world)) = [].
Proof.
  destruct (main_exit_status env_configured (HttpJson (JObj [(lit "command", JStr (lit "ls -la"))]))
              Interrupted (fun _ => 0%Z) (fun _ => []) empty_world) as [_ [_ [_ [_ H]]]].
  apply (H [lit "list"; lit "files"] (lit "https://abc123.execute-api.us-east-1.amazonaws.com/prod/generate"));
    [discriminate | reflexivity | discriminate | left; reflexivity].
Defined.

(** C7 counterexample: with no query argument the exit status is 2, not 1. *)
Lemma main_no_query_exit_two :
  fst (main env_configured (HttpJson (JObj [(lit "command", JStr (lit "ls -la"))])) Interrupted
         (fun _ => 0%Z) (fun _ => []) [] false empty_world) = 2%Z.
Proof. reflexivity. Qed.

(** C10: when the operator clears the staged line to blanks and presses
    enter, nothing reaches [os.system] and the call returns false, as after a
    cancellation. *)
Theorem execute_blank_line_not_run (env : cli_env) (system : py_str -> Z)
  (pj : json -> py_str) (command : json) (show : option bool) (line : py_str) (w : world)
  (Hblank : py_strip line = []) :
  fst (execute_command env (Entered line) system pj command show w) = false /\
  executed (snd (execute_command env (Entered line) system pj command show w)) = executed w /\
  fst (execute_command env Interrupted system pj command show w) = false /\
  fst (execute_command env EndOfInput system pj command show w) = false /\
  (forall http query,
     fst (run env http (Entered line) system pj query false w) = Returned false /\
     executed (snd (run env http (Entered line) system pj query false w)) = executed w).
Proof.
  split; [|split; [|split; [|split]]].
  - apply execute_command_false. exact Hblank.
  - apply execute_command_no_exec. exact Hblank.
  - apply execute_command_false. exact I.
  - apply execute_command_false. exact I.
  - intros http query. apply run_interactive_no_exec. exact Hblank.
Qed.

Lemma execute_blank_line_not_run_witness :
  fst (execute_command env_configured (Entered (lit "   ")) (fun _ => 0%Z) (fun _ => [])
         (JStr (lit "rm -i notes.txt")) None empty_world) = false /\
  executed (snd (execute_command env_configured (Entered (lit "   ")) (fun _ => 0%Z) (fun _ => [])
         (JStr (lit "rm -i notes.txt")) None empty_world)) = [].
Proof.
  destruct (execute_blank_line_not_run env_configured (fun _ => 0%Z) (fun _ => [])
              (JStr (lit "rm -i notes.txt")) None (lit "   ") empty_world eq_refl)
    as [H1 [H2 _]].
  split; [exact H1 | exact H2].
Defined.

(* ================================================================== *)
(** ** Further lemmas on the retry loop *)

Lemma retry_loop_last_attempt : forall im clk k n,
  n + S k = S max_retries ->
  exists m, n <= m <= max_retries /\
    invokes (fst (retry_loop im clk (S k) n)) = seq n (S (m - n)) /\
    List.length (delays (fst (retry_loop im clk (S k) n))) = m - n /\
    snd (retry_loop im clk (S k) n) = outcome_of (im m).
Proof.
  intros im clk k. induction k as [|k IH]; intros n Hn.
  - assert (n = max_retries) by (unfold max_retries in *; lia). subst n.
    exists max_retries. cbn [retry_loop].
    destruct (im max_retries) as [b|[| | | | | |code msg|name]] eqn:E;
      try (simpl; rewrite ?E; repeat split; lia || reflexivity).
    rewrite andb_false_r.
    destruct (str_eqb code (lit "ValidationException")); simpl;
      rewrite ?E; repeat split; lia || reflexivity.
  - assert (Hlt : n < max_retries) by (unfold max_retries in *; lia).
    cbn [retry_loop].
    assert (here : forall tr r, tr = [Invoke n] -> r = outcome_of (im n) ->
      exists m, n <= m <= max_retries /\ invokes (fst (tr, r)) = seq n (S (m - n)) /\
        List.length (delays (fst (tr, r))) = m - n /\ snd (tr, r) = outcome_of (im m)).
    { intros tr r -> ->. exists n. simpl. rewrite Nat.sub_diag. repeat split; lia || reflexivity. }
    assert (next : forall d,
      exists m, n <= m <= max_retries /\
        invokes (fst (let (tr, r) := retry_loop im clk (S k) (S n) in
                      (Invoke n :: Sleep d :: tr, r))) = seq n (S (m - n)) /\
        List.length (delays (fst (let (tr, r) := retry_loop im clk (S k) (S n) in
                      (Invoke n :: Sleep d :: tr, r)))) = m - n /\
        snd (let (tr, r) := retry_loop im clk (S k) (S n) in
             (Invoke n :: Sleep d :: tr, r)) = outcome_of (im m)).
    { intros d. destruct (IH (S n) ltac:(lia)) as [m [Hm [Hi [Hd Ho]]]].
      destruct (retry_loop im clk (S k) (S n)) as [tr r]. simpl in *.
      exists m. replace (m - n) with (S (m - S n)) by lia.
      rewrite Hi, Hd. repeat split; lia || reflexivity || assumption. }
    destruct (im n) as [b|[| | | | | |code msg|name]] eqn:E.
    8: {
      destruct (str_in code throttle_codes && (n <? max_retries)); [apply next|].
      destruct (str_eqb code (lit "ValidationException"));
        [apply here; [reflexivity | now rewrite ?E]|].
      destruct (n <? max_retries); [apply next | apply here; [reflexivity | now rewrite ?E]]. }
    all: apply here; [reflexivity | now rewrite ?E].
Qed.

Lemma retry_loop_trace_shape : forall im clk k n,
  n + S k = S max_retries ->
  exists m ds, n <= m <= max_retries /\ List.length ds = m - n /\
    fst (retry_loop im clk (S k) n) = attempt_trace n ds /\
    (forall i d, nth_error ds i = Some d ->
       d = throttle_delay (n + i) (clk (n + i)) \/ d = retry_delay (n + i)) /\
    snd (retry_loop im clk (S k) n) = outcome_of (im m).
Proof.
  intros im clk k. induction k as [|k IH]; intros n Hn.
  - assert (n = max_retries) by (unfold max_retries in *; lia). subst n.
    exists max_retries, []. cbn [retry_loop].
    assert (Hd : forall i d, nth_error (@nil Q) i = Some d ->
       d = throttle_delay (max_retries + i) (clk (max_retries + i)) \/
       d = retry_delay (max_retries + i)) by (intros [|i] d H; discriminate).
    destruct (im max_retries) as [b|[| | | | | |code msg|name]] eqn:E;
      try (simpl; rewrite ?E; repeat split; try lia; try reflexivity; exact Hd).
    rewrite andb_false_r.
    destruct (str_eqb code (lit "ValidationException")); simpl;
      rewrite ?E; repeat split; try lia; try reflexivity; exact Hd.
  - assert (Hlt : n < max_retries) by (unfold max_retries in *; lia).
    cbn [retry_loop].
    assert (here : forall tr r, tr = [Invoke n] -> r = outcome_of (im n) ->
      exists m ds, n <= m <= max_retries /\ List.length ds = m - n /\
        fst (tr, r) = attempt_trace n ds /\
        (forall i d, nth_error ds i = Some d ->
           d = throttle_delay (n + i) (clk (n + i)) \/ d = retry_delay (n + i)) /\
        snd (tr, r) = outcome_of (im m)).
    { intros tr r -> ->. exists n, []. simpl. rewrite Nat.sub_diag.
      repeat split; try lia; try reflexivity. intros [|i] d H; discriminate. }
    assert (next : forall d, d = throttle_delay n (clk n) \/ d = retry_delay n ->
      exists m ds, n <= m <= max_retries /\ List.length ds = m - n /\
        fst (let (tr, r) := retry_loop im clk (S k) (S n) in
             (Invoke n :: Sleep d :: tr, r)) = attempt_trace n ds /\
        (forall i d, nth_error ds i = Some d ->
           d = throttle_delay (n + i) (clk (n + i)) \/ d = retry_delay (n + i)) /\
        snd (let (tr, r) := retry_loop im clk (S k) (S n) in
             (Invoke n :: Sleep d :: tr, r)) = outcome_of (im m)).
    { intros d Hd0. destruct (IH (S n) ltac:(lia)) as [m [ds [Hm [Hl [Ht [Hd Ho]]]]]].
      destruct (retry_loop im clk (S k) (S n)) as [tr r]. simpl in *.
      exists m, (d :: ds). repeat split; try lia.
      - simpl. rewrite Hl. lia.
      - rewrite Ht. reflexivity.
      - intros [|i] d' Hi; simpl in Hi.
        + injection Hi as <-. rewrite Nat.add_0_r. exact Hd0.
        + rewrite <- Nat.add_succ_comm. exact (Hd i d' Hi).
      - exact Ho. }
    destruct (im n) as [b|[| | | | | |code msg|name]] eqn:E.
    8: {
      destruct (str_in code throttle_codes && (n <? max_retries)); [apply next; left; reflexivity|].
      destruct (str_eqb code (lit "ValidationException"));
        [apply here; [reflexivity | now rewrite ?E]|].
      destruct (n <? max_retries);
        [apply next; right; reflexivity | apply here; [reflexivity | now rewrite ?E]]. }
    all: apply here; [reflexivity | now rewrite ?E].
Qed.

Lemma retry_delay_le_throttle : forall n, n < max_retries ->
  (retry_delay n <= inject_Z (base_delay * 2 ^ Z.of_nat n) + (1 # 2))%Q.
Proof.
  unfold max_retries. intros n Hn.
  destruct n as [|[|[|[|[|n]]]]]; try lia; apply Qle_bool_imp_le; reflexivity.
Qed.

Lemma sleep_budget_nonneg : forall k n, (0 <= sleep_budget k n)%Q.
Proof.
  induction k as [|k IH]; intros n; cbn [sleep_budget]; [apply Qle_refl|].
  assert (Hz : (0 <= base_delay * 2 ^ Z.of_nat n)%Z).
  { unfold base_delay. apply Z.mul_nonneg_nonneg; [lia | apply Z.pow_nonneg; lia]. }
  assert (Hq : (0 <= inject_Z (base_delay * 2 ^ Z.of_nat n))%Q).
  { change 0%Q with (inject_Z 0). now rewrite <- Zle_Qle. }
  specialize (IH (S n)). set (x := inject_Z (base_delay * 2 ^ Z.of_nat n)) in *. lra.
Qed.

Lemma retry_loop_sleep_bound : forall im clk fuel n, n <= max_retries ->
  (Qsum (delays (fst (retry_loop im clk fuel n))) <= sleep_budget (max_retries - n) n)%Q.
Proof.
  intros im clk fuel. induction fuel as [|fuel IH]; intros n Hn.
  { apply sleep_budget_nonneg. }
  cbn [retry_loop].
  assert (step : forall d,
    (d <= inject_Z (base_delay * 2 ^ Z.of_nat n) + (1 # 2))%Q -> n < max_retries ->
    (Qsum (delays (fst (let (tr, r) := retry_loop im clk fuel (S n) in
                        (Invoke n :: Sleep d :: tr, r))))
     <= sleep_budget (max_retries - n) n)%Q).
  { intros d Hd Hlt. specialize (IH (S n) ltac:(lia)).
    destruct (retry_loop im clk fuel (S n)) as [tr r]. simpl fst in *.
    replace (max_retries - n) with (S (max_retries - S n)) by lia.
    cbn [sleep_budget delays]. unfold Qsum in *. cbn [fold_right].
    set (x := inject_Z (base_delay * 2 ^ Z.of_nat n)) in *. lra. }
  destruct (im n) as [b|[| | | | | |code msg|name]];
    try (simpl; apply sleep_budget_nonneg).
  destruct (str_in code throttle_codes && (n <? max_retries)) eqn:Ht.
  { apply andb_true_iff in Ht as [_ Hlt]. apply Nat.ltb_lt in Hlt.
    apply step; [|exact Hlt]. apply Qlt_le_weak, throttle_delay_bounds. }
  destruct (str_eqb code (lit "ValidationException")); [simpl; apply sleep_budget_nonneg|].
  destruct (n <? max_retries) eqn:Hlt; [|simpl; apply sleep_budget_nonneg].
  apply Nat.ltb_lt in Hlt. apply step; [apply retry_delay_le_throttle|]; exact Hlt.
Qed.

(* ================================================================== *)
(** ** Further properties of the backend invoker *)

(** The loop makes attempts [0, 1, ..., m] in this order for some
    [m <= max_retries], with exactly one sleep between each attempt and the
    next and none after the last; the sleep after attempt [i] is its
    throttling backoff or its [1 + 0.5 i] retry delay; the result is what
    attempt [m] gave: the body read if the call returned, its exception
    otherwise.  The loop never runs out of iterations. *)
Theorem invoker_outcome_of_last_attempt (im : nat -> invoke_result) (clk : nat -> Q) :
  exists m ds, m <= max_retries /\ List.length ds = m /\
    fst (invoker im clk) = attempt_trace 0 ds /\
    (forall i d, nth_error ds i = Some d ->
       d = throttle_delay i (clk i) \/ d = retry_delay i) /\
    snd (invoker im clk) = outcome_of (im m).
Proof.
  destruct (retry_loop_trace_shape im clk max_retries 0 eq_refl)
    as [m [ds [Hm [Hl [Ht [Hd Ho]]]]]].
  exists m, ds. unfold invoker. rewrite Nat.sub_0_r in Hl.
  repeat split; auto; lia.
Qed.

(** Whatever the backend does, the invoker sleeps at most 5 times and at
    most 64.5 seconds in total (2 + 4 + 8 + 16 + 32 seconds of backoff plus
    at most 0.5 s of jitter per sleep). *)
Theorem invoker_total_sleep_bound (im : nat -> invoke_result) (clk : nat -> Q) :
  List.length (delays (fst (invoker im clk))) <= max_retries /\
  (Qsum (delays (fst (invoker im clk))) <= 129 # 2)%Q.
Proof.
  split.
  - destruct (retry_loop_last_attempt im clk max_retries 0 eq_refl) as [m [Hm [_ [Hd _]]]].
    unfold invoker. rewrite Hd. lia.
  - eapply Qle_trans.
    + unfold invoker. apply (retry_loop_sleep_bound im clk (S max_retries) 0). lia.
    + apply Qle_bool_imp_le. reflexivity.
Qed.

Lemma str_eqb_true : forall s t, str_eqb s t = true -> s = t.
Proof. unfold str_eqb. intros s t. destruct (list_eq_dec N.eq_dec s t); congruence. Qed.

Lemma throttle_code_not_validation : forall code,
  str_in code throttle_codes = true -> str_eqb code (lit "ValidationException") = false.
Proof.
  unfold str_in, throttle_codes. intros code H. cbn [existsb] in H.
  repeat (apply orb_true_iff in H as [H|H]; [apply str_eqb_true in H; subst; reflexivity|]).
  discriminate.
Qed.

(** A backend that throttles every call (with any of the throttling codes)
    is called 6 times (attempts 0-5) with the exponential backoff sleep of
    each attempt 0-4 between it and the next, and the throttling error of
    the last attempt is re-raised. *)
Theorem invoker_persistent_throttling (im : nat -> invoke_result) (clk : nat -> Q)
  (Hthrottled : forall n, exists code msg,
     im n = InvokeRaised (ClientError code msg) /\ str_in code throttle_codes = true) :
  fst (invoker im clk) = attempt_trace 0 (map (fun n => throttle_delay n (clk n)) (seq 0 5)) /\
  snd (invoker im clk) = outcome_of (im 5).
Proof.
  assert (T : forall fuel n, n < max_retries ->
    retry_loop im clk (S fuel) n =
    (Invoke n :: Sleep (throttle_delay n (clk n)) :: fst (retry_loop im clk fuel (S n)),
     snd (retry_loop im clk fuel (S n)))).
  { intros fuel n Hn. destruct (Hthrottled n) as [code [msg [E Hc]]].
    eapply retry_loop_throttled; eauto. }
  unfold invoker, max_retries. rewrite !T by (unfold max_retries; lia).
  destruct (Hthrottled 5) as [code [msg [E Hc]]].
  cbn [retry_loop]. rewrite E, Hc, (throttle_code_not_validation code Hc).
  split; reflexivity.
Qed.

(* ================================================================== *)
(** ** Further lemmas on the adapter *)

Ltac destruct_ok H :=
  match type of H with
  | context [match ?m with Ok _ => _ | Raise _ => _ end] =>
      let E := fresh "E" in destruct m eqn:E; try discriminate H
  end.

Lemma parse_request_stripped : forall jl ev q ctx,
  parse_request jl ev = Ok (q, ctx) -> py_strip q = q.
Proof.
  intros jl ev q ctx H. unfold parse_request in H.
  destruct_ok H. destruct_ok H. destruct_ok H. destruct_ok H.
  match type of E1 with context [match ?v with JStr _ => _ | _ => _ end] =>
    destruct v; try discriminate E1 end.
  injection E1 as <-. injection H as <- _. apply py_strip_idem.
Qed.

Lemma generate_some_sanitized : forall im clk q ctx tr c,
  generate_shell_command im clk q ctx = (tr, Ok (Some c)) -> exists t, c = sanitize t.
Proof.
  intros im clk q ctx tr c. unfold generate_shell_command.
  destruct ctx; try discriminate.
  destruct (invoker im clk) as [tr' [b|e]]; [|discriminate].
  destruct (extract_text b) as [t|e]; [|discriminate].
  intros H. injection H as _ <-. eauto.
Qed.

(* ================================================================== *)
(** ** Further properties of the adapter *)

(** Every response of the handler carries the JSON content type and the
    [Access-Control-Allow-Origin: *] header. *)
Theorem lambda_handler_headers (jl : py_str -> option json) (im : nat -> invoke_result)
  (clk : nat -> Q) (ev : list (py_str * json)) :
  headers (snd (lambda_handler jl im clk ev)) = json_headers.
Proof.
  destruct (lambda_handler_cases jl im clk ev) as [H|[H|[H|[c [q [_ H]]]]]];
    simpl in H; rewrite H; reflexivity.
Qed.

(** A 200 response carries a non-empty command that is stripped and holds
    no code fence, and the query the request parses to, non-empty and
    stripped. *)
Theorem lambda_handler_ok_response (jl : py_str -> option json) (im : nat -> invoke_result)
  (clk : nat -> Q) (ev : list (py_str * json))
  (H200 : statusCode (snd (lambda_handler jl im clk ev)) = 200%Z) :
  exists c q ctx, parse_request jl ev = Ok (q, ctx) /\
    snd (lambda_handler jl im clk ev) = resp_command c q /\
    c <> [] /\ py_strip c = c /\ has_infix fence c = false /\
    q <> [] /\ py_strip q = q.
Proof.
  revert H200. unfold lambda_handler, handler_try.
  destruct (parse_request jl ev) as [[q ctx]|e] eqn:Hp; [|discriminate].
  destruct q as [|ch q']; [discriminate|].
  destruct (generate_shell_command im clk (ch :: q') ctx) as [tr r] eqn:Hg.
  destruct r as [[[|c cs]|]|e]; try discriminate.
  intros _. destruct (generate_some_sanitized im clk _ _ _ _ Hg) as [t Ht].
  exists (c :: cs), (ch :: q'), ctx. repeat split; try discriminate.
  - rewrite Ht. unfold sanitize. apply py_strip_idem.
  - rewrite Ht. apply sanitize_clean.
  - eapply parse_request_stripped. exact Hp.
Qed.

(** The backend is called only for a request that parses, with a non-blank
    query and a dict context; the events of the handler are then those of
    the invoker. *)
Theorem lambda_handler_backend_calls (jl : py_str -> option json) (im : nat -> invoke_result)
  (clk : nat -> Q) (ev : list (py_str * json)) :
  fst (lambda_handler jl im clk ev) = [] \/
  exists q kv, parse_request jl ev = Ok (q, JObj kv) /\ q <> [] /\
    fst (lambda_handler jl im clk ev) = fst (invoker im clk).
Proof.
  unfold lambda_handler, handler_try.
  destruct (parse_request jl ev) as [[q ctx]|e]; [|left; reflexivity].
  destruct q as [|ch q']; [left; reflexivity|].
  unfold generate_shell_command.
  destruct ctx as [| | | | |kv]; try (left; reflexivity).
  right. exists (ch :: q'), kv. split; [reflexivity|]. split; [discriminate|].
  destruct (invoker im clk) as [tr r]. reflexivity.
Qed.

(** A valid request whose backend answer is read and is non-empty after
    cleanup gives 200 with the cleaned command and the stripped query. *)
Theorem lambda_handler_success (jl : py_str -> option json) (im : nat -> invoke_result)
  (clk : nat -> Q) (ev : list (py_str * json)) (q : py_str) (kv : list (py_str * json))
  (tr : list bedrock_event) (b : option json) (t : py_str)
  (Hparse : parse_request jl ev = Ok (q, JObj kv)) (Hq : q <> [])
  (Hinv : invoker im clk = (tr, Ok b)) (Htext : extract_text b = Ok t)
  (Hclean : sanitize t <> []) :
  lambda_handler jl im clk ev = (tr, resp_command (sanitize t) q).
Proof.
  unfold lambda_handler, handler_try, generate_shell_command.
  rewrite Hparse. destruct q as [|ch q']; [contradiction|].
  rewrite Hinv, Htext. destruct (sanitize t); [contradiction|]. reflexivity.
Qed.

(** A valid request gives 500 "Failed to generate shell command", after the
    invoker's events, when the invoker raises, when its answer has no
    [content[0].text] string, or when that text is empty after cleanup (for
    instance an answer that is only a code fence). *)
Theorem lambda_handler_generation_failed (jl : py_str -> option json)
  (im : nat -> invoke_result) (clk : nat -> Q) (ev : list (py_str * json))
  (q : py_str) (kv : list (py_str * json))
  (Hparse : parse_request jl ev = Ok (q, JObj kv)) (Hq : q <> [])
  (Hfail : (exists e, snd (invoker im clk) = Raise e) \/
           (exists b e, snd (invoker im clk) = Ok b /\ extract_text b = Raise e) \/
           (exists b t, snd (invoker im clk) = Ok b /\ extract_text b = Ok t /\
                        sanitize t = [])) :
  lambda_handler jl im clk ev = (fst (invoker im clk), resp_generation_failed).
Proof.
  unfold lambda_handler, handler_try, generate_shell_command.
  rewrite Hparse. destruct q as [|ch q']; [contradiction|].
  destruct (invoker im clk) as [tr r]. simpl in Hfail.
  destruct Hfail as [[e ->] | [[b [e [-> He]]] | [b [t [-> [Ht Hs]]]]]];
    [reflexivity | rewrite He; reflexivity | rewrite Ht, Hs; reflexivity].
Qed.

(** A request that cannot be read gives 500 "Internal server error" without
    calling the backend: a string body that is not JSON or not a JSON object,
    a body of another non-object type, or a non-blank query with a context
    that is not a dict. *)
Theorem lambda_handler_bad_request (jl : py_str -> option json) (im : nat -> invoke_result)
  (clk : nat -> Q) (ev : list (py_str * json))
  (Hbad : (exists raw, dict_get ev (lit "body") = Some (JStr raw) /\
             (jl raw = None \/ exists v, jl raw = Some v /\ forall kv, v <> JObj kv)) \/
          (exists b, dict_get ev (lit "body") = Some b /\
             (forall kv, b <> JObj kv) /\ (forall s, b <> JStr s)) \/
          (exists q ctx, parse_request jl ev = Ok (q, ctx) /\ q <> [] /\
             forall kv, ctx <> JObj kv)) :
  lambda_handler jl im clk ev = ([], resp_internal_error).
Proof.
  unfold lambda_handler, handler_try.
  destruct Hbad as [[raw [Hb [Hj | [v [Hj Hv]]]]] | [[b [Hb [Ho Hs]]] | [q [ctx [Hp [Hq Hc]]]]]].
  - unfold parse_request. rewrite Hb, Hj. reflexivity.
  - unfold parse_request. rewrite Hb, Hj.
    destruct v as [| | | | |kv]; try reflexivity. exfalso. exact (Hv kv eq_refl).
  - unfold parse_request. rewrite Hb.
    destruct b as [| | |s| |kv]; try reflexivity.
    + exfalso. exact (Hs s eq_refl).
    + exfalso. exact (Ho kv eq_refl).
  - rewrite Hp. destruct q as [|ch q']; [contradiction|].
    unfold generate_shell_command.
    destruct ctx as [| | | | |kv]; try reflexivity. exfalso. exact (Hc kv eq_refl).
Qed.

(* ================================================================== *)
(** ** Lemmas on the prompt builder and the request of the CLI *)

Lemma has_infix_app_l : forall x a b, has_infix x b = true -> has_infix x (a ++ b) = true.
Proof.
  intros x a b H. apply has_infix_spec in H as [u [v ->]].
  apply has_infix_spec. exists (a ++ u), v. now rewrite <- app_assoc.
Qed.

Lemma has_infix_self_app : forall x b, has_infix x (x ++ b) = true.
Proof. intros x b. apply has_infix_spec. exists [], b. reflexivity. Qed.

Lemma has_infix_app2 : forall x y b, has_infix (x ++ y) (x ++ y ++ b) = true.
Proof.
  intros x y b. apply has_infix_spec. exists [], b. now rewrite <- app_assoc.
Qed.

Lemma user_prompt_ok : forall str_of q kv,
  let os_name := match dict_get kv (lit "os") with Some v => v | None => JStr (lit "posix") end in
  let cwd := match dict_get kv (lit "cwd") with Some v => v | None => JStr (lit ".") end in
  exists p, user_prompt str_of q (JObj kv) = Ok p /\
    has_infix q p = true /\
    has_infix (lit "- Operating System: " ++ fmt_value str_of os_name) p = true /\
    has_infix (lit "- Current Directory: " ++ fmt_value str_of cwd) p = true.
Proof.
  intros str_of q kv os_name cwd. unfold user_prompt, py_get.
  fold os_name. replace (match dict_get kv (lit "os") with
                         | Some v => Ok v | None => Ok (JStr (lit "posix")) end)
    with (@Ok json os_name) by (unfold os_name; destruct (dict_get kv (lit "os")); reflexivity).
  replace (match dict_get kv (lit "cwd") with
           | Some v => Ok v | None => Ok (JStr (lit ".")) end)
    with (@Ok json cwd) by (unfold cwd; destruct (dict_get kv (lit "cwd")); reflexivity).
  eexists. split; [reflexivity|].
  repeat split.
  - do 4 apply has_infix_app_l. apply has_infix_self_app.
  - do 9 apply has_infix_app_l. apply has_infix_app2.
  - do 12 apply has_infix_app_l. apply has_infix_app2.
Qed.

Lemma escape_cons : forall c r,
  py_replace [92%N] [92%N; 92%N] (c :: r) =
  if (c =? 92)%N then 92%N :: 92%N :: py_replace [92%N] [92%N; 92%N] r
  else c :: py_replace [92%N] [92%N; 92%N] r.
Proof.
  intros c r. unfold py_replace. cbn [replace_from is_prefix List.length pred].
  rewrite andb_true_r, N.eqb_sym. destruct (c =? 92)%N; reflexivity.
Qed.

Lemma unescape_pair : forall r,
  py_replace [92%N; 92%N] [92%N] (92%N :: 92%N :: r) = 92%N :: py_replace [92%N; 92%N] [92%N] r.
Proof. intros r. reflexivity. Qed.

Lemma unescape_other : forall c r, c <> 92%N ->
  py_replace [92%N; 92%N] [92%N] (c :: r) = c :: py_replace [92%N; 92%N] [92%N] r.
Proof.
  intros c r Hc. unfold py_replace. cbn [replace_from is_prefix].
  destruct (N.eqb_spec 92 c); [congruence | reflexivity].
Qed.

(* ================================================================== *)
(** ** Further properties of the prompt builder and of the CLI *)

(** For a dict context the prompt is built and contains the query, the
    operating system line (default "posix") and the directory line
    (default "."); for any other context building it raises, exactly when
    generate_shell_command raises before calling the backend. *)
Theorem user_prompt_fields (str_of : json -> py_str) (q : py_str) :
  (forall kv, exists p, user_prompt str_of q (JObj kv) = Ok p /\
     has_infix q p = true /\
     has_infix (lit "- Operating System: " ++ fmt_value str_of
                  (match dict_get kv (lit "os") with Some v => v | None => JStr (lit "posix") end))
               p = true /\
     has_infix (lit "- Current Directory: " ++ fmt_value str_of
                  (match dict_get kv (lit "cwd") with Some v => v | None => JStr (lit ".") end))
               p = true) /\
  (forall im clk ctx,
     (exists e, user_prompt str_of q ctx = Raise e) <->
     generate_shell_command im clk q ctx = ([], Raise AttributeError)).
Proof.
  split.
  - intros kv. apply user_prompt_ok.
  - intros im clk ctx. unfold generate_shell_command. split.
    + intros [e He]. destruct ctx as [| | | | |kv]; try reflexivity.
      destruct (user_prompt_ok str_of q kv) as [p [Hp _]]. congruence.
    + destruct ctx as [| | | | |kv]; try (intros _; eexists; reflexivity).
      destruct (invoker im clk) as [tr r]. intros H. injection H as _ H.
      destruct r as [b|]; [destruct (extract_text b)|]; discriminate.
Qed.

(** The request [query_ai] sends, once decoded from the body of an API
    Gateway event, is read by the handler as the stripped query and the
    context dict [{os, cwd}], and the prompt then names that operating
    system and that directory. *)
Theorem cli_payload_parsed (jl : py_str -> option json) (str_of : json -> py_str)
  (raw q os_name cwd : py_str)
  (Hjson : jl raw = Some (cli_payload q os_name cwd)) :
  parse_request jl [(lit "body", JStr raw)] =
    Ok (py_strip q, JObj [(lit "os", JStr os_name); (lit "cwd", JStr cwd)]) /\
  exists p, user_prompt str_of (py_strip q)
              (JObj [(lit "os", JStr os_name); (lit "cwd", JStr cwd)]) = Ok p /\
    has_infix (lit "- Operating System: " ++ os_name) p = true /\
    has_infix (lit "- Current Directory: " ++ cwd) p = true.
Proof.
  split.
  - unfold parse_request. cbn -[py_strip]. rewrite Hjson. reflexivity.
  - destruct (user_prompt_ok str_of (py_strip q)
                [(lit "os", JStr os_name); (lit "cwd", JStr cwd)]) as [p [Hp [_ [Ho Hc]]]].
    exists p. split; [exact Hp|]. split; [exact Ho | exact Hc].
Qed.

(** The escaping of the seamless mode loses nothing: replacing every
    doubled backslash by one gives the command back, and the output is
    longer by the number of backslashes. *)
Theorem seamless_escape_roundtrip (s : py_str) :
  py_replace [92%N; 92%N] [92%N] (py_replace [92%N] [92%N; 92%N] s) = s /\
  List.length (py_replace [92%N] [92%N; 92%N] s) = List.length s + count_occ N.eq_dec s 92%N.
Proof.
  induction s as [|c s [IH1 IH2]]; [split; reflexivity|].
  rewrite escape_cons. destruct (N.eqb_spec c 92) as [->|Hc].
  - rewrite unescape_pair, IH1. split; [reflexivity|].
    cbn [List.length count_occ]. destruct (N.eq_dec 92 92); [|congruence]. lia.
  - rewrite unescape_other, IH1 by exact Hc. split; [reflexivity|].
    cbn [List.length count_occ]. destruct (N.eq_dec c 92); [congruence|]. lia.
Qed.

(** An answer with no backticks is only trimmed by the cleanup. *)
Theorem sanitize_without_backticks (t : py_str) (Hnofence : has_infix fence t = false) :
  sanitize t = py_strip t.
Proof.
  unfold sanitize.
  assert (H1 : has_infix fence (py_strip t) = false).
  { destruct (has_infix fence (py_strip t)) eqn:E; [|reflexivity].
    apply has_infix_strip in E. congruence. }
  assert (H2 : has_infix fence_bash (py_strip t) = false).
  { destruct (has_infix fence_bash (py_strip t)) eqn:E; [|reflexivity].
    apply (has_infix_prefix fence fence_bash) in E; [congruence | reflexivity]. }
  rewrite (replace_absent fence_bash [] _ H2), (replace_absent fence [] _ H1).
  apply py_strip_idem.
Qed.


(** When the service answers a dict without a "command" key, or with an
    empty or false one, [run] returns false, runs nothing and writes nothing
    to standard output; outside seamless mode it reports "Failed to get
    command from AI service" on standard error. *)
Theorem run_no_command (env : cli_env) (stage : stage_result) (system : py_str -> Z)
  (pj : json -> py_str) (query : py_str) (seamless : bool) (kv : list (py_str * json))
  (w : world)
  (Hnone : dict_get kv (lit "command") = None \/
           exists v, dict_get kv (lit "command") = Some v /\ truthy v = false) :
  run env (HttpJson (JObj kv)) stage system pj query seamless w =
  (Returned false,
   mk_world (stdout w)
     (if seamless then stderr w
      else stderr w ++ lit "Failed to get command from AI service" ++ newline)
     (executed w)).
Proof.
  destruct w as [o e x]. unfold run, query_ai, bindM, retM.
  destruct Hnone as [H | [v [H Hv]]]; rewrite H; [|rewrite Hv];
    destruct seamless; reflexivity.
Qed.

(* ================================================================== *)
(** ** Instances of the further properties *)

Lemma invoker_persistent_throttling_witness :
  fst (invoker stub_throttled_always clock_fixed) =
    attempt_trace 0 (map (fun n => throttle_delay n (clock_fixed n)) (seq 0 5)) /\
  snd (invoker stub_throttled_always clock_fixed) =
    Raise (ClientError (lit "ThrottlingException") (lit "Rate exceeded")).
Proof.
  destruct (invoker_persistent_throttling stub_throttled_always clock_fixed
              ltac:(intros n; exists (lit "ThrottlingException"), (lit "Rate exceeded");
                    split; reflexivity)) as [H1 H2].
  split; [exact H1 | exact H2].
Defined.

Lemma lambda_handler_ok_response_witness :
  exists c q ctx, parse_request (fun _ => None) event_list_files = Ok (q, ctx) /\
    snd (lambda_handler (fun _ => None) (fun _ => bedrock_answer "ls -la") clock_fixed
           event_list_files) = resp_command c q /\ c <> [].
Proof.
  destruct (lambda_handler_ok_response (fun _ => None) (fun _ => bedrock_answer "ls -la")
              clock_fixed event_list_files ltac:(vm_compute; reflexivity))
    as [c [q [ctx [H0 [H1 [H2 _]]]]]].
  exists c, q, ctx. split; [exact H0 | split; [exact H1 | exact H2]].
Defined.

Lemma lambda_handler_success_witness :
  lambda_handler (fun _ => None) (fun _ => bedrock_answer "ls -la") clock_fixed
    event_list_files = ([Invoke 0], resp_command (sanitize (lit "ls -la")) (lit "list files")).
Proof.
  apply (lambda_handler_success (fun _ => None) (fun _ => bedrock_answer "ls -la") clock_fixed
           event_list_files (lit "list files") [] [Invoke 0]
           (Some (JObj [(lit "content", JArr [JObj [(lit "text", JStr (lit "ls -la"))]])]))
           (lit "ls -la"));
    [reflexivity | vm_compute; discriminate | reflexivity | reflexivity
    | vm_compute; discriminate].
Defined.

Lemma lambda_handler_generation_failed_witness :
  lambda_handler (fun _ => None) stub_fence_only clock_fixed event_list_files =
  (fst (invoker stub_fence_only clock_fixed), resp_generation_failed).
Proof.
  apply (lambda_handler_generation_failed (fun _ => None) stub_fence_only clock_fixed
           event_list_files (lit "list files") []);
    [reflexivity | vm_compute; discriminate |].
  right. right.
  exists (Some (JObj [(lit "content", JArr [JObj [(lit "text", JStr (fence_bash ++ newline ++ fence))]])])),
    (fence_bash ++ newline ++ fence).
  split; [reflexivity | split; [reflexivity | vm_compute; reflexivity]].
Defined.

Lemma lambda_handler_bad_request_witness :
  lambda_handler (fun _ => None) stub_throttled3 clock_fixed
    [(lit "body", JStr (lit "query=list+files"))] = ([], resp_internal_error).
Proof.
  apply lambda_handler_bad_request. left.
  exists (lit "query=list+files"). split; [reflexivity | left; reflexivity].
Defined.

Lemma cli_payload_parsed_witness :
  parse_request (fun _ => Some (cli_payload (lit " list files ") (lit "posix") (lit "/home/u")))
    [(lit "body", JStr (lit "payload"))] =
  Ok (py_strip (lit " list files "), JObj [(lit "os", JStr (lit "posix")); (lit "cwd", JStr (lit "/home/u"))]).
Proof.
  destruct (cli_payload_parsed
              (fun _ => Some (cli_payload (lit " list files ") (lit "posix") (lit "/home/u")))
              (fun _ => []) (lit "payload") (lit " list files ") (lit "posix") (lit "/home/u")
              ltac:(reflexivity)) as [H _].
  exact H.
Defined.

Lemma sanitize_without_backticks_witness :
  sanitize (lit "  ls -la ") = py_strip (lit "  ls -la ").
Proof. apply sanitize_without_backticks. reflexivity. Defined.


Lemma run_no_command_witness :
  run env_configured (HttpJson (JObj [(lit "status", JStr (lit "ok"))])) Interrupted
    (fun _ => 0%Z) (fun _ => []) (lit "list files") false empty_world =
  (Returned false,
   mk_world [] ([] ++ lit "Failed to get command from AI service" ++ newline) []).
Proof.
  apply (run_no_command env_configured Interrupted (fun _ => 0%Z) (fun _ => [])
           (lit "list files") false [(lit "status", JStr (lit "ok"))] empty_world).
  left. reflexivity.
Defined.
